(** * threestudio/models/prompt.py : the prompt processor

    A shallow embedding of [PromptProcessor] (prompt-library lookup,
    direction table, per-sample direction selection and the assembly of the
    conditional / unconditional embedding batch), with the properties of
    the specification stated and settled against it.

    Modelling conventions.
    - A Python [str] is a [string]: the sequence of the bytes of its UTF-8
      encoding.  [str.lower] is Unicode-aware; the development is
      parametric in it ([Lower]) and uses nothing of it but idempotence.
      [ascii_lower], which acts on the letters [A]..[Z], is the instance
      for the examples, all of them ASCII.
    - A 1-D tensor is a [list]; a tensor of embeddings is the list of its
      rows along the batch axis.  The rows themselves are opaque: their type
      [Row] and the text encoder [encode] are parameters of the development.
    - A finite floating-point number is the rational [Q] it denotes.  The
      tensors hold single-precision values; a Python scalar compared with a
      tensor is first rounded to single precision, and Python's own
      arithmetic rounds to double precision ([Float.binary32],
      [Float.binary64], round to nearest, ties to even).  NaN and the
      infinities are outside the model.
    - Python exceptions are the constructors of [error]; a computation that
      may raise returns a [result].  The steps that leave the module (the
      text encoder, the library file) may raise as well: whether they do
      is a parameter ([External]). *)

From Stdlib Require Import QArith Ascii Lqa.
From stdpp Require Import gmap strings list.

Local Open Scope string_scope.

(** ** Exceptions and the error monad *)

Inductive error : Type :=
  | ValueError_multiple (keywords : list string)
  | ValueError_not_found (keywords : list string)
  | KeyError (key : string)
  | IndexError_mask_shape
  | IndexError_out_of_range
  | RuntimeError_expand
  | NotImplementedError
  | FileError
  | EncoderError.

Inductive result (A : Type) : Type :=
  | Ok (a : A)
  | Raise (e : error).
Arguments Ok {A} a.
Arguments Raise {A} e.

Definition rbind {A B} (r : result A) (k : A → result B) : result B :=
  match r with
  | Ok a => k a
  | Raise e => Raise e
  end.

Notation "x <~ r ;; k" := (rbind r (fun x => k))
  (at level 100, r at next level, right associativity).

Definition of_option {A} (o : option A) (e : error) : result A :=
  match o with
  | Some a => Ok a
  | None => Raise e
  end.

Definition is_ok {A} (r : result A) : bool :=
  match r with Ok _ => true | Raise _ => false end.

(** ** Python string operations used by the module *)

Module Str.

(** [s.startswith(p)] *)
Definition startswith (s p : string) : bool := String.prefix p s.

(** [s[n:]] *)
Fixpoint drop (n : nat) (s : string) : string :=
  match n, s with
  | O, _ => s
  | S n', String _ s' => drop n' s'
  | S _, EmptyString => EmptyString
  end.

Definition lower_ascii (c : ascii) : ascii :=
  let n := nat_of_ascii c in
  if (65 <=? n)%nat && (n <=? 90)%nat then ascii_of_nat (n + 32) else c.

(** [s.lower()] on ASCII text: the letters [A]..[Z] are mapped, every
    other character is kept.  It serves as the instance [ascii_lower] of
    the examples; the development itself is parametric in [str.lower]. *)
Fixpoint lower (s : string) : string :=
  match s with
  | EmptyString => EmptyString
  | String c s' => String (lower_ascii c) (lower s')
  end.

(** [s.split(sep)] for a one-character separator: always at least one
    field, empty fields kept. *)
Fixpoint split (sep : ascii) (s : string) : list string :=
  match s with
  | EmptyString => [EmptyString]
  | String c s' =>
      if Ascii.eqb c sep then EmptyString :: split sep s'
      else match split sep s' with
           | w :: ws => String c w :: ws
           | [] => [String c EmptyString]
           end
  end.

(** [k in s] : substring test. *)
Fixpoint contains (s k : string) : bool :=
  String.prefix k s ||
  match s with
  | EmptyString => false
  | String _ s' => contains s' k
  end.

End Str.

(** ** Tensor operations used by the module

    1-D tensors are lists.  The operations raise where PyTorch raises. *)

Definition Qgtb (x y : Q) : bool := negb (Qle_bool x y).
Definition Qltb (x y : Q) : bool := negb (Qle_bool y x).

(** Rounding of a rational to a binary floating-point format with [prec]
    bits of precision and least exponent [emin], to nearest, ties to
    even.  A value beyond the largest finite number of the format rounds
    here to a power of two above it (where IEEE 754 gives an infinity):
    like the infinity it is greater than every finite number of the
    format. *)
Module Float.

Definition pow2 (e : Z) : Q :=
  if (0 <=? e)%Z then inject_Z (2 ^ e) else 1 # Z.to_pos (2 ^ (- e)).

(** The integer nearest to [n / d], ties to even ([0 <= n], [0 < d]). *)
Definition nearest_even (n d : Z) : Z :=
  let f := (n / d)%Z in
  let r2 := (2 * (n mod d))%Z in
  if (r2 <? d)%Z then f
  else if (d <? r2)%Z then (f + 1)%Z
  else if Z.even f then f else (f + 1)%Z.

(** [floor (log2 (n / d))] for positive [n] and [d]. *)
Definition ilog2 (n d : Z) : Z :=
  let e := (Z.log2 n - Z.log2 d)%Z in
  if (0 <=? e)%Z
  then (if (d * 2 ^ e <=? n)%Z then e else (e - 1)%Z)
  else (if (d <=? n * 2 ^ (- e))%Z then e else (e - 1)%Z).

Definition round_pos (prec emin n d : Z) : Q :=
  let e := Z.max (ilog2 n d) emin in
  let s := (e - (prec - 1))%Z in
  let m := if (0 <=? s)%Z then nearest_even n (d * 2 ^ s)
           else nearest_even (n * 2 ^ (- s)) d in
  Qred (inject_Z m * pow2 s).

Definition round (prec emin : Z) (q : Q) : Q :=
  match Qnum q with
  | Z0 => 0
  | Zpos p => round_pos prec emin (Zpos p) (Zpos (Qden q))
  | Zneg p => - round_pos prec emin (Zpos p) (Zpos (Qden q))
  end.

(** [torch.float32] and Python's [float]. *)
Definition binary32 : Q → Q := round 24 (-126).
Definition binary64 : Q → Q := round 53 (-1022).

End Float.

Module Tensor.

(** [torch.ones_like(t, dtype=torch.bool)] *)
Definition ones_like {A} (t : list A) : list bool := map (fun _ => true) t.

(** [torch.zeros_like(t, dtype=torch.long)] *)
Definition zeros_like {A} (t : list A) : list nat := map (fun _ => 0%nat) t.

(** [t > c] and [t < c] of a single-precision tensor against a Python
    scalar: the scalar is converted to the precision of the tensor, then
    compared entry by entry. *)
Definition gt (t : list Q) (c : Q) : list bool :=
  map (fun x => Qgtb x (Float.binary32 c)) t.
Definition lt (t : list Q) (c : Q) : list bool :=
  map (fun x => Qltb x (Float.binary32 c)) t.

(** [a & b] and [a | b]; in this module both operands always come from
    the same tensor, so their shapes agree. *)
Definition and (a b : list bool) : list bool := zip_with andb a b.
Definition or (a b : list bool) : list bool := zip_with orb a b.

(** [t[mask] = v] with a boolean mask: the mask must have the shape of
    [t]. *)
Definition masked_fill (t : list nat) (mask : list bool) (v : nat)
    : result (list nat) :=
  if (length mask =? length t)%nat
  then Ok (zip_with (fun (b : bool) x => if b then v else x) mask t)
  else Raise IndexError_mask_shape.

(** [t[idx]] with an integer index tensor: gathers rows, every index must
    be in range. *)
Fixpoint index {A} (t : list A) (idx : list nat) : result (list A) :=
  match idx with
  | [] => Ok []
  | i :: rest =>
      r <~ of_option (t !! i) IndexError_out_of_range ;;
      rs <~ index t rest ;;
      Ok (r :: rs)
  end.

(** [t.expand(n, -1, -1)]: a batch axis of size 1 is broadcast to [n], a
    batch axis of size [n] is kept, anything else is refused. *)
Definition expand {A} (t : list A) (n : nat) : result (list A) :=
  match t with
  | [r] => Ok (replicate n r)
  | _ => if (length t =? n)%nat then Ok t else Raise RuntimeError_expand
  end.

(** [torch.cat([a, b], dim=0)] *)
Definition cat {A} (a b : list A) : list A := a ++ b.

End Tensor.

(** ** Configuration and direction table *)

Module Config.
Record t : Type := mk {
  prompt : string;
  negative_prompt : string;
  pretrained_model_name_or_path : string;
  view_dependent_prompting : bool;
  overhead_threshold : Q;
  front_threshold : Q;
  back_threshold : Q;
  view_dependent_prompt_front : bool;
}.

(** The defaults of the dataclass. *)
Definition default : t :=
  {| prompt := "a hamburger";
     negative_prompt := "";
     pretrained_model_name_or_path := "runwayml/stable-diffusion-v1-5";
     view_dependent_prompting := true;
     overhead_threshold := 60;
     front_threshold := 45;
     back_threshold := 45;
     view_dependent_prompt_front := false |}.
End Config.

Module DirectionConfig.
Record t : Type := mk {
  name : string;
  prompt : string;
  negative_prompt : string;
  condition : list Q → list Q → list Q → list bool;
}.
End DirectionConfig.

(** The four condition closures; they capture the configuration.  The
    thresholds are Python floats: [-front_threshold] is exact,
    [180 - back_threshold] and [-180 + back_threshold] are rounded to
    double precision before the comparison converts them. *)
Definition side_condition (ele azi dis : list Q) : list bool :=
  Tensor.ones_like ele.

Definition front_condition (cfg : Config.t) (ele azi dis : list Q) : list bool :=
  Tensor.and (Tensor.gt azi (- Config.front_threshold cfg))
             (Tensor.lt azi (Config.front_threshold cfg)).

Definition back_condition (cfg : Config.t) (ele azi dis : list Q) : list bool :=
  Tensor.or
    (Tensor.gt azi (Float.binary64 (180 - Config.back_threshold cfg)))
    (Tensor.lt azi (Float.binary64 (- (180) + Config.back_threshold cfg))).

Definition overhead_condition (cfg : Config.t) (ele azi dis : list Q) : list bool :=
  Tensor.gt ele (Config.overhead_threshold cfg).

(** The table of the branch [view_dependent_prompt_front = True]. *)
Definition directions_front (cfg : Config.t) : list DirectionConfig.t :=
  [ DirectionConfig.mk "side" "side view of " "" side_condition;
    DirectionConfig.mk "front" "front view of " "" (front_condition cfg);
    DirectionConfig.mk "back" "backside view of " "" (back_condition cfg);
    DirectionConfig.mk "overhead" "overhead view of " "" (overhead_condition cfg) ].

(** The table of the [else] branch. *)
Definition directions_suffix (cfg : Config.t) : list DirectionConfig.t :=
  [ DirectionConfig.mk "side" ", side view" "" side_condition;
    DirectionConfig.mk "front" ", front view" "" (front_condition cfg);
    DirectionConfig.mk "back" ", back view" "" (back_condition cfg);
    DirectionConfig.mk "overhead" ", overhead view" "" (overhead_condition cfg) ].

(** [{d.name: i for i, d in enumerate(directions)}]: entries are inserted in
    table order, a repeated name keeps its last index. *)
Definition build_direction2idx (directions : list DirectionConfig.t)
    : gmap string nat :=
  fold_left (fun m (p : nat * DirectionConfig.t) =>
               <[DirectionConfig.name p.2 := p.1]> m)
            (imap pair directions) ∅.

(** ** What the module takes from outside *)

(** [str.lower]. *)
Record Lower : Type := mkLower {
  lower_fn :> string → string;
  lower_idempotent : ∀ s, lower_fn (lower_fn s) = lower_fn s;
}.

(** The instance for ASCII text. *)
Definition ascii_lower : Lower.
Proof.
  refine (mkLower Str.lower _).
  intros s. induction s as [|c s IH]; simpl; [reflexivity|].
  rewrite IH. f_equal.
  destruct c as [[] [] [] [] [] [] [] []]; reflexivity.
Defined.

(** The outcome of each step that leaves the module: [Ok tt] when the step
    returns, [Raise e] when it raises.  What the step returns when it
    returns is given separately (the encoder function, the content of the
    library file). *)
Record External : Type := mkExternal {
  (** [self.configure_text_encoder()]; [NotImplementedError] in the base
      class *)
  configure_text_encoder : result unit;
  (** [open(...)] and [json.load(f)] *)
  load_prompt_library : result unit;
  (** a call [self.get_text_embeddings(prompt, negative_prompt)] *)
  text_encoder_raises : list string → list string → result unit;
  (** [self.destroy_text_encoder()] *)
  destroy_text_encoder : result unit;
}.

(** Every step returns. *)
Definition working : External :=
  {| configure_text_encoder := Ok tt;
     load_prompt_library := Ok tt;
     text_encoder_raises := fun _ _ => Ok tt;
     destroy_text_encoder := Ok tt |}.

(** The abstract base class: there is no encoder to configure. *)
Definition base_class : External :=
  {| configure_text_encoder := Raise NotImplementedError;
     load_prompt_library := Ok tt;
     text_encoder_raises := fun _ _ => Raise NotImplementedError;
     destroy_text_encoder := Raise NotImplementedError |}.

Section Model.

Context (L : Lower) (ext : External).

(** ** Prompt library and prompt resolver *)

(** [json.load] of [load/prompt_library.json]: category name to the ordered
    list of its prompts. *)
Abbreviation PromptLibrary := (gmap string (list string)).

(** [all([k in prompt.lower() for k in keywords])] *)
Definition matches_keywords (keywords : list string) (prompt : string) : bool :=
  forallb (fun k => Str.contains (L prompt) k) keywords.

(** The body of the [for prompt in ...] loop of [preprocess_prompt]; the
    loop state is the local [candidate]. *)
Definition scan_step (keywords : list string) (candidate : option string)
    (prompt : string) : result (option string) :=
  if matches_keywords keywords prompt then
    match candidate with
    | Some _ => Raise (ValueError_multiple keywords)
    | None => Ok (Some prompt)
    end
  else Ok candidate.

Fixpoint scan (keywords : list string) (candidate : option string)
    (prompts : list string) : result (option string) :=
  match prompts with
  | [] => Ok candidate
  | p :: rest =>
      c <~ scan_step keywords candidate p ;;
      scan keywords c rest
  end.

Definition preprocess_prompt (prompt_library : PromptLibrary) (prompt : string)
    : result string :=
  if Str.startswith prompt "lib:" then
    let keywords := Str.split "_" (L (Str.drop 4 prompt)) in
    prompts <~ of_option (prompt_library !! "dreamfusion") (KeyError "dreamfusion") ;;
    candidate <~ scan keywords None prompts ;;
    match candidate with
    | None => Raise (ValueError_not_found keywords)
    | Some c => Ok c
    end
  else Ok prompt.

(** ** The prompt processor *)

Section Processor.

(** The text encoder is an external collaborator: it turns each string of
    a batch into one embedding row. *)
Variable Row : Type.
Variable encode : string → Row.

(** [get_text_embeddings(prompt, negative_prompt)] on two lists of
    strings: the call may raise; when it returns, one row per string, in
    order. *)
Definition get_text_embeddings (prompt negative_prompt : list string)
    : result (list Row * list Row) :=
  _ <~ text_encoder_raises ext prompt negative_prompt ;;
  Ok (map encode prompt, map encode negative_prompt).

(** The attributes of [self] once [configure] has run. *)
Record PromptProcessor : Type := mkPromptProcessor {
  cfg : Config.t;
  prompt_library : PromptLibrary;
  prompt : string;
  negative_prompt : string;
  text_embeddings : list Row;
  uncond_text_embeddings : list Row;
  directions : list DirectionConfig.t;
  direction2idx : gmap string nat;
  text_embeddings_vd : list Row;
  uncond_text_embeddings_vd : list Row;
}.

(** [configure]; [library] is the content of [load/prompt_library.json]
    when the file can be read.  An exception of any step ends [configure]
    there: the steps after it, [destroy_text_encoder] included, are not
    run. *)
Definition configure (cfg : Config.t) (library : PromptLibrary)
    : result PromptProcessor :=
  _ <~ configure_text_encoder ext ;;
  (* load prompt library *)
  _ <~ load_prompt_library ext ;;
  let prompt_library := library in
  (* use provided prompt or find prompt in library *)
  prompt <~ preprocess_prompt prompt_library (Config.prompt cfg) ;;
  (* use provided negative prompt *)
  let negative_prompt := Config.negative_prompt cfg in
  base <~ get_text_embeddings [prompt] [negative_prompt] ;;
  let '(text_embeddings, uncond_text_embeddings) := base in
  self <~
    (if Config.view_dependent_prompt_front cfg then
       let directions := directions_front cfg in
       let direction2idx := build_direction2idx directions in
       vd <~ get_text_embeddings
               (map (fun d => DirectionConfig.prompt d +:+ " "
                              +:+ Config.prompt cfg +:+ " ") directions)
               (map (fun d => DirectionConfig.negative_prompt d +:+ " "
                              +:+ Config.negative_prompt cfg) directions) ;;
       let '(text_embeddings_vd, uncond_text_embeddings_vd) := vd in
       Ok (mkPromptProcessor cfg prompt_library prompt negative_prompt
             text_embeddings uncond_text_embeddings directions direction2idx
             text_embeddings_vd uncond_text_embeddings_vd)
     else
       let directions := directions_suffix cfg in
       let direction2idx := build_direction2idx directions in
       vd <~ get_text_embeddings
               (map (fun d => prompt +:+ " " +:+ DirectionConfig.prompt d)
                  directions)
               (map (fun d => negative_prompt +:+ " "
                              +:+ DirectionConfig.negative_prompt d)
                  directions) ;;
       let '(text_embeddings_vd, uncond_text_embeddings_vd) := vd in
       Ok (mkPromptProcessor cfg prompt_library prompt negative_prompt
             text_embeddings uncond_text_embeddings directions direction2idx
             text_embeddings_vd uncond_text_embeddings_vd)) ;;
  _ <~ destroy_text_encoder ext ;;
  Ok self.

(** One iteration of [for d in self.directions]:
    [direction_idx[d.condition(...)] = self.direction2idx[d.name]]. *)
Definition direction_step (self : PromptProcessor) (elevation azimuth
    camera_distances : list Q) (direction_idx : list nat)
    (d : DirectionConfig.t) : result (list nat) :=
  v <~ of_option (direction2idx self !! DirectionConfig.name d)
                 (KeyError (DirectionConfig.name d)) ;;
  Tensor.masked_fill direction_idx
    (DirectionConfig.condition d elevation azimuth camera_distances) v.

Fixpoint direction_loop (self : PromptProcessor) (elevation azimuth
    camera_distances : list Q) (direction_idx : list nat)
    (ds : list DirectionConfig.t) : result (list nat) :=
  match ds with
  | [] => Ok direction_idx
  | d :: rest =>
      direction_idx' <~ direction_step self elevation azimuth
                          camera_distances direction_idx d ;;
      direction_loop self elevation azimuth camera_distances
        direction_idx' rest
  end.

(** The block under [# Get direction]. *)
Definition get_direction_idx (self : PromptProcessor) (elevation azimuth
    camera_distances : list Q) : result (list nat) :=
  direction_loop self elevation azimuth camera_distances
    (Tensor.zeros_like elevation) (directions self).

(** The two blocks [(text_embeddings, uncond_text_embeddings)] that
    [__call__] concatenates. *)
Definition call_blocks (self : PromptProcessor) (elevation azimuth
    camera_distances : list Q) : result (list Row * list Row) :=
  let batch_size := length elevation in
  if Config.view_dependent_prompting (cfg self) then
    direction_idx <~ get_direction_idx self elevation azimuth
                       camera_distances ;;
    text_embeddings <~ Tensor.index (text_embeddings_vd self) direction_idx ;;
    uncond_text_embeddings <~
      Tensor.index (uncond_text_embeddings_vd self) direction_idx ;;
    Ok (text_embeddings, uncond_text_embeddings)
  else
    text_embeddings <~ Tensor.expand (text_embeddings self) batch_size ;;
    uncond_text_embeddings <~
      Tensor.expand (uncond_text_embeddings self) batch_size ;;
    Ok (text_embeddings, uncond_text_embeddings).

(** [__call__]: returns (cond, uncond), in this order. *)
Definition __call__ (self : PromptProcessor) (elevation azimuth
    camera_distances : list Q) : result (list Row) :=
  blocks <~ call_blocks self elevation azimuth camera_distances ;;
  Ok (Tensor.cat blocks.1 blocks.2).

(** The object over its lifetime: [__call__] reads [self] and assigns no
    attribute, so a call leaves the processor as it was. *)
Record Pose : Type := mkPose {
  elevation : list Q;
  azimuth : list Q;
  camera_distances : list Q;
}.

Definition call_step (self : PromptProcessor) (p : Pose)
    : PromptProcessor * result (list Row) :=
  (self, __call__ self (elevation p) (azimuth p) (camera_distances p)).

Fixpoint lifetime (self : PromptProcessor) (calls : list Pose)
    : PromptProcessor :=
  match calls with
  | [] => self
  | p :: rest => lifetime (call_step self p).1 rest
  end.

End Processor.

Arguments cfg {Row} _.
Arguments prompt_library {Row} _.
Arguments prompt {Row} _.
Arguments negative_prompt {Row} _.
Arguments text_embeddings {Row} _.
Arguments uncond_text_embeddings {Row} _.
Arguments directions {Row} _.
Arguments direction2idx {Row} _.
Arguments text_embeddings_vd {Row} _.
Arguments uncond_text_embeddings_vd {Row} _.
Arguments configure {Row} encode cfg library.
Arguments get_direction_idx {Row} self elevation azimuth camera_distances.
Arguments direction_loop {Row} self elevation azimuth camera_distances direction_idx ds.
Arguments direction_step {Row} self elevation azimuth camera_distances direction_idx d.
Arguments call_blocks {Row} self elevation azimuth camera_distances.
Arguments __call__ {Row} self elevation azimuth camera_distances.
Arguments call_step {Row} self p.
Arguments lifetime {Row} self calls.

(** ** Sample data, and the vocabulary of the properties *)

Definition demo_library : PromptLibrary :=
  {[ "dreamfusion" := [ "a DSLR photo of a hamburger";
                        "a zoomed out DSLR photo of a baby bunny";
                        "a DSLR photo of a corgi puppy" ] ]}.

(** [direction2idx] as a bijection between the names of the table and its
    row indices [0 .. length ds - 1]. *)
Definition direction2idx_bijection (ds : list DirectionConfig.t)
    (m : gmap string nat) : Prop :=
  (∀ n, is_Some (m !! n) ↔ n ∈ DirectionConfig.name <$> ds) ∧
  (∀ n i, m !! n = Some i → (i < length ds)%nat) ∧
  (∀ n1 n2 i, m !! n1 = Some i → m !! n2 = Some i → n1 = n2) ∧
  (∀ i, (i < length ds)%nat → ∃ n, m !! n = Some i) ∧
  (∀ i d, ds !! i = Some d → m !! DirectionConfig.name d = Some i).

Record Built {Row} (encode : string → Row) (c : Config.t)
    (library : PromptLibrary) (self : PromptProcessor Row) : Prop :=
  Built_intro {
    built_cfg : cfg self = c;
    built_library : prompt_library self = library;
    built_prompt : preprocess_prompt library (Config.prompt c) = Ok (prompt self);
    built_negative : negative_prompt self = Config.negative_prompt c;
    built_base : text_embeddings self = [encode (prompt self)];
    built_uncond : uncond_text_embeddings self = [encode (negative_prompt self)];
    built_directions : directions self =
       if Config.view_dependent_prompt_front c
       then directions_front c else directions_suffix c;
    built_direction2idx :
       direction2idx self = build_direction2idx (directions self);
    built_vd : text_embeddings_vd self =
       encode <$>
         (if Config.view_dependent_prompt_front c
          then (λ d, DirectionConfig.prompt d +:+ " "
                     +:+ Config.prompt c +:+ " ") <$> directions self
          else (λ d, prompt self +:+ " " +:+ DirectionConfig.prompt d)
                 <$> directions self);
    built_uncond_vd : uncond_text_embeddings_vd self =
       encode <$>
         (if Config.view_dependent_prompt_front c
          then (λ d, DirectionConfig.negative_prompt d +:+ " "
                     +:+ Config.negative_prompt c) <$> directions self
          else (λ d, negative_prompt self +:+ " "
                     +:+ DirectionConfig.negative_prompt d)
                 <$> directions self)
  }.

(** The five bounds as the comparisons see them. *)
Definition overhead_bound (c : Config.t) : Q :=
  Float.binary32 (Config.overhead_threshold c).
Definition front_lo (c : Config.t) : Q :=
  Float.binary32 (- Config.front_threshold c).
Definition front_hi (c : Config.t) : Q :=
  Float.binary32 (Config.front_threshold c).
Definition back_hi (c : Config.t) : Q :=
  Float.binary32 (Float.binary64 (180 - Config.back_threshold c)).
Definition back_lo (c : Config.t) : Q :=
  Float.binary32 (Float.binary64 (- (180) + Config.back_threshold c)).

(** The index the loop leaves for a sample with elevation [e] and azimuth
    [a]: the last direction of the table whose condition holds, the
    conditions being tested against the bounds above. *)
Definition sample_direction (c : Config.t) (e a : Q) : nat :=
  if Qgtb e (overhead_bound c) then 3%nat
  else if Qgtb a (back_hi c) || Qltb a (back_lo c) then 2%nat
  else if Qgtb a (front_lo c) && Qltb a (front_hi c) then 1%nat
  else 0%nat.

Definition verbatim (s : string) : string := s.

(** The default configuration, configured against [demo_library]. *)
Definition demo_processor : PromptProcessor string :=
  {| cfg := Config.default;
     prompt_library := demo_library;
     prompt := "a hamburger";
     negative_prompt := "";
     text_embeddings := ["a hamburger"];
     uncond_text_embeddings := [""];
     directions := directions_suffix Config.default;
     direction2idx := build_direction2idx (directions_suffix Config.default);
     text_embeddings_vd :=
       [ "a hamburger , side view"; "a hamburger , front view";
         "a hamburger , back view"; "a hamburger , overhead view" ];
     uncond_text_embeddings_vd := [" "; " "; " "; " "] |}.

(** View-dependent prompting switched off. *)
Definition plain_cfg : Config.t :=
  Config.mk "a hamburger" "" "runwayml/stable-diffusion-v1-5"
    false 60 45 45 false.

Definition plain_processor : PromptProcessor string :=
  {| cfg := plain_cfg;
     prompt_library := demo_library;
     prompt := "a hamburger";
     negative_prompt := "";
     text_embeddings := ["a hamburger"];
     uncond_text_embeddings := [""];
     directions := directions_suffix plain_cfg;
     direction2idx := build_direction2idx (directions_suffix plain_cfg);
     text_embeddings_vd :=
       [ "a hamburger , side view"; "a hamburger , front view";
         "a hamburger , back view"; "a hamburger , overhead view" ];
     uncond_text_embeddings_vd := [" "; " "; " "; " "] |}.

(** Front-aware mode with a library query as prompt and as negative
    prompt. *)
Definition front_lib_cfg : Config.t :=
  Config.mk "lib:hamburger" "lib:corgi" "runwayml/stable-diffusion-v1-5"
    true 60 45 45 true.

Definition front_lib_processor : PromptProcessor string :=
  {| cfg := front_lib_cfg;
     prompt_library := demo_library;
     prompt := "a DSLR photo of a hamburger";
     negative_prompt := "lib:corgi";
     text_embeddings := ["a DSLR photo of a hamburger"];
     uncond_text_embeddings := ["lib:corgi"];
     directions := directions_front front_lib_cfg;
     direction2idx := build_direction2idx (directions_front front_lib_cfg);
     text_embeddings_vd :=
       [ "side view of  lib:hamburger "; "front view of  lib:hamburger ";
         "backside view of  lib:hamburger ";
         "overhead view of  lib:hamburger " ];
     uncond_text_embeddings_vd :=
       [" lib:corgi"; " lib:corgi"; " lib:corgi"; " lib:corgi"] |}.

(** A wide back region: the front and back thresholds add up to more than
    180 degrees. *)
Definition wide_back_cfg : Config.t :=
  Config.mk "a hamburger" "" "runwayml/stable-diffusion-v1-5"
    true 60 45 170 false.

Definition wide_back_processor : PromptProcessor string :=
  {| cfg := wide_back_cfg;
     prompt_library := demo_library;
     prompt := "a hamburger";
     negative_prompt := "";
     text_embeddings := ["a hamburger"];
     uncond_text_embeddings := [""];
     directions := directions_suffix wide_back_cfg;
     direction2idx := build_direction2idx (directions_suffix wide_back_cfg);
     text_embeddings_vd :=
       [ "a hamburger , side view"; "a hamburger , front view";
         "a hamburger , back view"; "a hamburger , overhead view" ];
     uncond_text_embeddings_vd := [" "; " "; " "; " "] |}.

(** An overhead threshold of 60.2, as the double that Python reads. *)
Definition sharp_cfg : Config.t :=
  Config.mk "a hamburger" "" "runwayml/stable-diffusion-v1-5"
    true (4236198399495373 # 70368744177664) 45 45 false.

Definition sharp_processor : PromptProcessor string :=
  {| cfg := sharp_cfg;
     prompt_library := demo_library;
     prompt := "a hamburger";
     negative_prompt := "";
     text_embeddings := ["a hamburger"];
     uncond_text_embeddings := [""];
     directions := directions_suffix sharp_cfg;
     direction2idx := build_direction2idx (directions_suffix sharp_cfg);
     text_embeddings_vd :=
       [ "a hamburger , side view"; "a hamburger , front view";
         "a hamburger , back view"; "a hamburger , overhead view" ];
     uncond_text_embeddings_vd := [" "; " "; " "; " "] |}.

(** C5, as the specification words it: an elevation strictly above
    [overhead_threshold] gives the index of [overhead]. *)
Definition overhead_rule_as_stated : Prop :=
  ∀ (c : Config.t) (library : PromptLibrary)
    (self : PromptProcessor string) (ele azi dis : list Q) (i : nat)
    (e : Q),
    configure verbatim c library = Ok self →
    length azi = length ele →
    ele !! i = Some e →
    (Config.overhead_threshold c < e)%Q →
    ∃ idx k,
      get_direction_idx self ele azi dis = Ok idx ∧
      direction2idx self !! "overhead" = Some k ∧
      idx !! i = Some k.

(** C4, as the specification words it: azimuth strictly inside the front
    interval and elevation at most [overhead_threshold] give the index of
    [front], for all positive thresholds. *)
Definition front_rule_as_stated : Prop :=
  ∀ (c : Config.t) (library : PromptLibrary)
    (self : PromptProcessor string) (ele azi dis : list Q) (i : nat)
    (e a : Q),
    (0 < Config.front_threshold c)%Q →
    (0 < Config.back_threshold c)%Q →
    (0 < Config.overhead_threshold c)%Q →
    configure verbatim c library = Ok self →
    length azi = length ele →
    ele !! i = Some e → azi !! i = Some a →
    (- Config.front_threshold c < a)%Q → (a < Config.front_threshold c)%Q →
    (e <= Config.overhead_threshold c)%Q →
    ∃ idx k,
      get_direction_idx self ele azi dis = Ok idx ∧
      direction2idx self !! "front" = Some k ∧
      idx !! i = Some k.

(** C3, as the specification words it: the negative prompt of the
    processor is the resolver's answer for the configured negative
    prompt. *)
Definition negative_prompt_resolved_as_stated : Prop :=
  ∀ (c : Config.t) (library : PromptLibrary)
    (self : PromptProcessor string),
    configure verbatim c library = Ok self →
    preprocess_prompt library (Config.negative_prompt c)
    = Ok (negative_prompt self).

(** [sep.join(fields)], the inverse of [Str.split]. *)
Fixpoint join_with (sep : ascii) (fields : list string) : string :=
  match fields with
  | [] => EmptyString
  | w :: rest =>
      match rest with
      | [] => w
      | _ :: _ => w +:+ String sep (join_with sep rest)
      end
  end.

(** The number of occurrences of a character in a string. *)
Fixpoint count_char (c : ascii) (s : string) : nat :=
  match s with
  | EmptyString => 0%nat
  | String a s' => ((if Ascii.eqb a c then 1 else 0) + count_char c s')%nat
  end.

(** The keywords of a [lib:] query. *)
Definition keywords_of (p : string) : list string :=
  Str.split "_" (L (Str.drop 4 p)).

(** A candidate matches when every keyword is a substring of its
    lower-cased text. *)
Definition contains_all (keywords : list string) (c : string) : Prop :=
  ∀ k, k ∈ keywords → ∃ before after, L c = before +:+ k +:+ after.

(** The four conditional prompt texts, in table order, written out for a
    base prompt [p]: fragment first in front-aware mode, fragment last
    otherwise. *)
Definition view_prompts (front : bool) (p : string) : list string :=
  if front then
    [ "side view of  " +:+ p +:+ " "; "front view of  " +:+ p +:+ " ";
      "backside view of  " +:+ p +:+ " "; "overhead view of  " +:+ p +:+ " " ]
  else
    [ p +:+ " , side view"; p +:+ " , front view";
      p +:+ " , back view"; p +:+ " , overhead view" ].

(** The negative prompt text shared by the four directions. *)
Definition view_negative_prompt (c : Config.t) : string :=
  if Config.view_dependent_prompt_front c
  then " " +:+ Config.negative_prompt c
  else Config.negative_prompt c +:+ " ".

(** The back region of the azimuth axis, between the bounds as compared. *)
Definition in_back_region (c : Config.t) (a : Q) : Prop :=
  (back_hi c < a)%Q ∨ (a < back_lo c)%Q.

(** The front interval of the azimuth axis, between the bounds as
    compared. *)
Definition in_front_interval (c : Config.t) (a : Q) : Prop :=
  (front_lo c < a)%Q ∧ (a < front_hi c)%Q.

(** A library that lists one prompt twice. *)
Definition duplicated_library : PromptLibrary :=
  {[ "dreamfusion" := [ "a DSLR photo of a hamburger";
                        "a DSLR photo of a corgi puppy";
                        "a DSLR photo of a hamburger" ] ]}.

(** * Properties *)

(** ** Strings *)

Lemma prefix_iff (k s : string) :
  String.prefix k s = true ↔ ∃ rest, s = k +:+ rest.
Proof.
  revert s. induction k as [|c k IH]; intros [|c' s]; simpl.
  - split; [intros _; by exists EmptyString | done].
  - split; [intros _; by exists (String c' s) | done].
  - split; [done | intros [rest H]; discriminate H].
  - destruct (ascii_dec c c') as [->|Hne].
    + rewrite IH. split; intros [rest H]; exists rest.
      * by rewrite H.
      * by injection H.
    + split; [done | intros [rest H]; injection H; intros _ E; by destruct Hne].
Qed.

(** [Str.contains] is the substring test of [k in s]. *)
Lemma contains_iff (s k : string) :
  Str.contains s k = true ↔ ∃ before after, s = before +:+ k +:+ after.
Proof.
  induction s as [|c s IH]; cbn [Str.contains].
  - rewrite orb_false_r, prefix_iff. split.
    + intros [rest H]. by exists EmptyString, rest.
    + intros [[|c b] [a H]]; [by exists a | discriminate H].
  - rewrite orb_true_iff, prefix_iff, IH. split.
    + intros [[rest H] | (b & a & H)].
      * by exists EmptyString, rest.
      * exists (String c b), a. simpl. by rewrite H.
    + intros ([|c' b] & a & H).
      * left. by exists a.
      * right. exists b, a. simpl in H. by injection H.
Qed.

(** ** The library scan *)

Lemma scan_taken (keywords : list string) (c0 : string) (prompts : list string) :
  scan keywords (Some c0) prompts =
    match List.filter (matches_keywords keywords) prompts with
    | [] => Ok (Some c0)
    | _ :: _ => Raise (ValueError_multiple keywords)
    end.
Proof.
  induction prompts as [|p rest IH]; simpl; [done|].
  unfold scan_step. destruct (matches_keywords keywords p); simpl; [done|].
  apply IH.
Qed.

Lemma scan_free (keywords : list string) (prompts : list string) :
  scan keywords None prompts =
    match List.filter (matches_keywords keywords) prompts with
    | [] => Ok None
    | [c] => Ok (Some c)
    | _ :: _ :: _ => Raise (ValueError_multiple keywords)
    end.
Proof.
  induction prompts as [|p rest IH]; simpl; [done|].
  unfold scan_step. destruct (matches_keywords keywords p); simpl.
  - rewrite scan_taken. by destruct (List.filter _ rest).
  - apply IH.
Qed.

(** C7. A prompt that does not start with [lib:] is returned unchanged, and
    nothing is raised. *)
Theorem preprocess_prompt_passthrough (library : PromptLibrary) (p : string) :
  Str.startswith p "lib:" = false →
  preprocess_prompt library p = Ok p.
Proof. intros H. unfold preprocess_prompt. by rewrite H. Qed.

(** ** The name-to-index dictionary *)

Lemma build_direction2idx_snoc (ds : list DirectionConfig.t)
    (d : DirectionConfig.t) :
  build_direction2idx (ds ++ [d])
  = <[DirectionConfig.name d := length ds]> (build_direction2idx ds).
Proof.
  unfold build_direction2idx. rewrite imap_app, fold_left_app. simpl.
  by rewrite Nat.add_0_r.
Qed.

(** Every entry of the dictionary points at a row of the table that
    carries its name. *)
Lemma build_direction2idx_sound (ds : list DirectionConfig.t) (n : string)
    (i : nat) :
  build_direction2idx ds !! n = Some i →
  ∃ d, ds !! i = Some d ∧ DirectionConfig.name d = n.
Proof.
  revert i. induction ds as [|d ds IH] using rev_ind; intros i.
  - unfold build_direction2idx. simpl. by rewrite lookup_empty.
  - rewrite build_direction2idx_snoc, lookup_insert_Some.
    intros [[<- <-] | [Hne Hi]].
    + exists d. split; [|done].
      rewrite lookup_app_r by lia. by rewrite Nat.sub_diag.
    + destruct (IH _ Hi) as (d' & Hd' & Hn). exists d'. split; [|done].
      by apply lookup_app_l_Some.
Qed.

(** With pairwise distinct names, every row is found under its name. *)
Lemma build_direction2idx_complete (ds : list DirectionConfig.t)
    (d : DirectionConfig.t) (i : nat) :
  NoDup (DirectionConfig.name <$> ds) →
  ds !! i = Some d →
  build_direction2idx ds !! DirectionConfig.name d = Some i.
Proof.
  revert i. induction ds as [|d0 ds IH] using rev_ind; intros i Hnd Hi.
  - by rewrite lookup_nil in Hi.
  - rewrite build_direction2idx_snoc.
    rewrite fmap_app in Hnd. apply NoDup_app in Hnd as (Hnd & Hfresh & _).
    apply lookup_app_Some in Hi as [Hi | [Hge Hi]].
    + rewrite lookup_insert_ne; [by apply IH|].
      intros E. apply (Hfresh (DirectionConfig.name d)).
      * apply list_elem_of_fmap. exists d. split; [done|].
        by apply list_elem_of_lookup_2 in Hi.
      * rewrite <- E. simpl. set_solver.
    + destruct (i - length ds)%nat as [|j] eqn:Hj; [|by destruct j].
      injection Hi as ->. replace i with (length ds) by lia.
      apply lookup_insert_eq.
Qed.

Lemma build_direction2idx_bijection (ds : list DirectionConfig.t) :
  NoDup (DirectionConfig.name <$> ds) →
  direction2idx_bijection ds (build_direction2idx ds).
Proof.
  intros Hnd. repeat split.
  - intros [i Hi]. destruct (build_direction2idx_sound _ _ _ Hi) as (d & Hd & <-).
    apply list_elem_of_fmap. exists d. split; [done|].
    by apply list_elem_of_lookup_2 in Hd.
  - intros Hn. apply list_elem_of_fmap in Hn as (d & -> & Hd).
    apply list_elem_of_lookup_1 in Hd as [i Hi].
    exists i. by apply build_direction2idx_complete.
  - intros n i Hi. destruct (build_direction2idx_sound _ _ _ Hi) as (d & Hd & _).
    by apply lookup_lt_Some in Hd.
  - intros n1 n2 i H1 H2.
    destruct (build_direction2idx_sound _ _ _ H1) as (d1 & Hd1 & <-).
    destruct (build_direction2idx_sound _ _ _ H2) as (d2 & Hd2 & <-).
    congruence.
  - intros i Hi. destruct (lookup_lt_is_Some_2 ds i Hi) as [d Hd].
    exists (DirectionConfig.name d). by apply build_direction2idx_complete.
  - intros i d. by apply build_direction2idx_complete.
Qed.

Lemma directions_front_names (cfg : Config.t) :
  DirectionConfig.name <$> directions_front cfg
  = ["side"; "front"; "back"; "overhead"].
Proof. reflexivity. Qed.

Lemma directions_suffix_names (cfg : Config.t) :
  DirectionConfig.name <$> directions_suffix cfg
  = ["side"; "front"; "back"; "overhead"].
Proof. reflexivity. Qed.

Lemma direction_names_NoDup :
  NoDup ["side"; "front"; "back"; "overhead"].
Proof.
  repeat (apply NoDup_cons; split;
          [rewrite ?elem_of_cons, elem_of_nil; intros H; intuition discriminate|]).
  apply NoDup_nil_2.
Qed.

(** ** What [configure] leaves in the object *)

Lemma configure_built {Row} (encode : string → Row) (c : Config.t)
    (library : PromptLibrary) (self : PromptProcessor Row) :
  configure encode c library = Ok self → Built encode c library self.
Proof.
  unfold configure, get_text_embeddings.
  destruct (configure_text_encoder ext) as [[]|]; cbn [rbind]; [|discriminate].
  destruct (load_prompt_library ext) as [[]|]; cbn [rbind]; [|discriminate].
  destruct (preprocess_prompt library (Config.prompt c)) as [p|e] eqn:Hp;
    cbn [rbind]; [|discriminate].
  destruct (text_encoder_raises ext [p] _) as [[]|]; cbn [rbind];
    [|discriminate].
  destruct (Config.view_dependent_prompt_front c) eqn:Hfront;
    (destruct (text_encoder_raises ext _ _) as [[]|]; cbn [rbind];
       [|discriminate]);
    (destruct (destroy_text_encoder ext) as [[]|]; cbn [rbind];
       [|discriminate]);
    intros [= <-]; split; cbn; rewrite ?Hfront; done.
Qed.

(** When every outside step returns, [configure] fails exactly when the
    prompt cannot be resolved. *)
Lemma configure_is_ok {Row} (encode : string → Row) (c : Config.t)
    (library : PromptLibrary) :
  configure_text_encoder ext = Ok tt →
  load_prompt_library ext = Ok tt →
  (∀ p n, text_encoder_raises ext p n = Ok tt) →
  destroy_text_encoder ext = Ok tt →
  is_ok (configure encode c library)
  = is_ok (preprocess_prompt library (Config.prompt c)).
Proof.
  intros H1 H2 H3 H4. unfold configure, get_text_embeddings.
  rewrite H1, H2. cbn [rbind].
  destruct (preprocess_prompt library (Config.prompt c)); cbn [rbind]; [|done].
  rewrite H3. cbn [rbind].
  destruct (Config.view_dependent_prompt_front c); rewrite H3; cbn [rbind];
    by rewrite H4.
Qed.

Lemma built_names {Row} (encode : string → Row) c library self :
  Built encode c library self →
  DirectionConfig.name <$> directions self
  = ["side"; "front"; "back"; "overhead"].
Proof.
  intros H. rewrite (built_directions _ _ _ _ H).
  by destruct (Config.view_dependent_prompt_front c).
Qed.

Lemma built_conditions {Row} (encode : string → Row) c library self :
  Built encode c library self →
  DirectionConfig.condition <$> directions self
  = [side_condition; front_condition c; back_condition c;
     overhead_condition c].
Proof.
  intros H. rewrite (built_directions _ _ _ _ H).
  by destruct (Config.view_dependent_prompt_front c).
Qed.

Lemma built_length {Row} (encode : string → Row) c library self :
  Built encode c library self → length (directions self) = 4%nat.
Proof.
  intros H. rewrite <- (length_fmap DirectionConfig.name).
  by rewrite (built_names _ _ _ _ H).
Qed.

Lemma built_bijection {Row} (encode : string → Row) c library self :
  Built encode c library self →
  direction2idx_bijection (directions self) (direction2idx self).
Proof.
  intros H. rewrite (built_direction2idx _ _ _ _ H).
  apply build_direction2idx_bijection.
  rewrite (built_names _ _ _ _ H). apply direction_names_NoDup.
Qed.

Lemma built_rows {Row} (encode : string → Row) c library self :
  Built encode c library self →
  length (text_embeddings_vd self) = length (directions self) ∧
  length (uncond_text_embeddings_vd self) = length (directions self).
Proof.
  intros H.
  rewrite (built_vd _ _ _ _ H), (built_uncond_vd _ _ _ _ H).
  destruct (Config.view_dependent_prompt_front c); by rewrite !length_fmap.
Qed.

(** [__call__] assigns no attribute of [self]. *)
Lemma lifetime_unchanged {Row} (self : PromptProcessor Row)
    (calls : list Pose) :
  lifetime self calls = self.
Proof. induction calls as [|p rest IH]; simpl; [done | apply IH]. Qed.

(** ** Comparisons and tensor operations *)

Lemma Qgtb_iff (x y : Q) : Qgtb x y = true ↔ (y < x)%Q.
Proof.
  unfold Qgtb. rewrite negb_true_iff, <- not_true_iff_false, Qle_bool_iff.
  split; [apply Qnot_le_lt | apply Qlt_not_le].
Qed.

Lemma Qltb_iff (x y : Q) : Qltb x y = true ↔ (x < y)%Q.
Proof. apply (Qgtb_iff y x). Qed.

Lemma Qgtb_false_iff (x y : Q) : Qgtb x y = false ↔ (x <= y)%Q.
Proof. unfold Qgtb. by rewrite negb_false_iff, Qle_bool_iff. Qed.

Lemma Qltb_false_iff (x y : Q) : Qltb x y = false ↔ (y <= x)%Q.
Proof. apply (Qgtb_false_iff y x). Qed.

Lemma masked_fill_ok (t : list nat) (mask : list bool) (v : nat) :
  length mask = length t →
  Tensor.masked_fill t mask v
  = Ok (zip_with (λ (b : bool) x, if b then v else x) mask t).
Proof.
  intros H. unfold Tensor.masked_fill.
  by rewrite (proj2 (Nat.eqb_eq _ _) H).
Qed.

Lemma masked_fill_inv (t : list nat) (mask : list bool) (v : nat)
    (t' : list nat) :
  Tensor.masked_fill t mask v = Ok t' →
  length mask = length t ∧
  t' = zip_with (λ (b : bool) x, if b then v else x) mask t.
Proof.
  unfold Tensor.masked_fill.
  destruct (length mask =? length t)%nat eqn:E; [|discriminate].
  intros [= <-]. by apply Nat.eqb_eq in E.
Qed.

(** A masked assignment of an in-range value keeps every entry in range. *)
Lemma masked_fill_bound (n : nat) (t : list nat) (mask : list bool) (v : nat)
    (t' : list nat) :
  (v < n)%nat → Forall (λ k, (k < n)%nat) t →
  Tensor.masked_fill t mask v = Ok t' →
  Forall (λ k, (k < n)%nat) t' ∧ length t' = length t.
Proof.
  intros Hv Ht Hfill. apply masked_fill_inv in Hfill as [Hlen ->].
  split.
  - clear Hlen. revert mask. induction Ht as [|x t Hx Ht IH]; intros [|b mask];
      simpl; try constructor; [by destruct b | apply IH].
  - rewrite length_zip_with. lia.
Qed.

Lemma index_inv {A} (t : list A) (idx : list nat) (rows : list A) :
  Tensor.index t idx = Ok rows →
  length rows = length idx ∧
  ∀ i k, idx !! i = Some k → is_Some (t !! k) ∧ rows !! i = t !! k.
Proof.
  revert rows. induction idx as [|k0 idx IH]; intros rows; simpl.
  - intros [= <-]. split; [done | intros i k H; by rewrite lookup_nil in H].
  - destruct (t !! k0) as [r|] eqn:Hr; cbn [of_option rbind]; [|discriminate].
    destruct (Tensor.index t idx) as [rs|e]; cbn [rbind]; [|discriminate].
    intros [= <-]. destruct (IH rs eq_refl) as [Hlen Hrows].
    split; [simpl; by rewrite Hlen|].
    intros [|i] k; simpl.
    + intros [= <-]. by rewrite Hr.
    + apply Hrows.
Qed.

Lemma index_ok {A} (t : list A) (idx : list nat) :
  Forall (λ k, (k < length t)%nat) idx →
  ∃ rows, Tensor.index t idx = Ok rows.
Proof.
  induction 1 as [|k idx Hk _ [rs IH]]; simpl; [by eexists|].
  destruct (lookup_lt_is_Some_2 t k Hk) as [r ->].
  rewrite IH. cbn. by eexists.
Qed.

(** The gather raises nothing but the out-of-range error, and raises it
    only on an index outside the table. *)
Lemma index_raise {A} (t : list A) (idx : list nat) (e : error) :
  Tensor.index t idx = Raise e →
  e = IndexError_out_of_range ∧ Exists (λ k, (length t <= k)%nat) idx.
Proof.
  induction idx as [|k idx IH]; simpl; [discriminate|].
  destruct (t !! k) as [r|] eqn:Hr; cbn [of_option rbind].
  - destruct (Tensor.index t idx) as [rs|e']; cbn [rbind]; [discriminate|].
    intros [= <-]. destruct (IH eq_refl) as [-> Hex]. split; [done|].
    by apply Exists_cons_tl.
  - intros [= <-]. split; [done|]. apply Exists_cons_hd.
    by apply lookup_ge_None in Hr.
Qed.

Lemma expand_single {A} (r : A) (n : nat) :
  Tensor.expand [r] n = Ok (replicate n r).
Proof. reflexivity. Qed.

(** ** The direction loop keeps indices inside the table *)

Section DirectionLoop.
Context {Row : Type} (self : PromptProcessor Row).
Context (ele azi dis : list Q).

Hypothesis Hrange : ∀ n k,
  direction2idx self !! n = Some k → (k < length (directions self))%nat.

Lemma direction_step_bound (idx idx' : list nat) (d : DirectionConfig.t) :
  Forall (λ k, (k < length (directions self))%nat) idx →
  direction_step self ele azi dis idx d = Ok idx' →
  Forall (λ k, (k < length (directions self))%nat) idx' ∧
  length idx' = length idx.
Proof.
  intros Hidx. unfold direction_step.
  destruct (direction2idx self !! DirectionConfig.name d) as [v|] eqn:Hv;
    cbn [of_option rbind]; [|discriminate].
  apply masked_fill_bound; [by eapply Hrange | done].
Qed.

Lemma direction_loop_bound (ds : list DirectionConfig.t)
    (idx idx' : list nat) :
  Forall (λ k, (k < length (directions self))%nat) idx →
  direction_loop self ele azi dis idx ds = Ok idx' →
  Forall (λ k, (k < length (directions self))%nat) idx' ∧
  length idx' = length idx.
Proof.
  revert idx. induction ds as [|d ds IH]; intros idx Hidx; simpl.
  - by intros [= <-].
  - destruct (direction_step self ele azi dis idx d) as [idx1|e] eqn:Hstep;
      cbn [rbind]; [|discriminate].
    destruct (direction_step_bound _ _ _ Hidx Hstep) as [H1 Hlen1].
    intros Hloop. destruct (IH _ H1 Hloop) as [H2 Hlen2].
    split; [done | congruence].
Qed.

(** The loop raises nothing but a mask-shape or a missing-name error. *)
Lemma direction_loop_raise (ds : list DirectionConfig.t) (idx : list nat)
    (e : error) :
  direction_loop self ele azi dis idx ds = Raise e →
  e = IndexError_mask_shape ∨ ∃ n, e = KeyError n.
Proof.
  revert idx. induction ds as [|d ds IH]; intros idx; simpl; [discriminate|].
  destruct (direction_step self ele azi dis idx d) as [idx1|e1] eqn:Hstep;
    cbn [rbind]; [apply IH|].
  intros [= <-]. revert Hstep. unfold direction_step.
  destruct (direction2idx self !! DirectionConfig.name d) as [v|];
    cbn [of_option rbind].
  - unfold Tensor.masked_fill. destruct (_ =? _)%nat; [discriminate|].
    intros [= <-]. by left.
  - intros [= <-]. right. by eexists.
Qed.

End DirectionLoop.

(** ** The direction of one sample *)

Lemma overwrite_chain (c : Config.t) (ele azi dis : list Q) :
  length azi = length ele →
  zip_with (λ (b : bool) x, if b then 3%nat else x)
    (overhead_condition c ele azi dis)
    (zip_with (λ (b : bool) x, if b then 2%nat else x)
       (back_condition c ele azi dis)
       (zip_with (λ (b : bool) x, if b then 1%nat else x)
          (front_condition c ele azi dis)
          (zip_with (λ (b : bool) x, if b then 0%nat else x)
             (side_condition ele azi dis) (Tensor.zeros_like ele))))
  = zip_with (sample_direction c) ele azi.
Proof.
  unfold overhead_condition, back_condition, front_condition, side_condition,
    Tensor.gt, Tensor.lt, Tensor.and, Tensor.or, Tensor.ones_like,
    Tensor.zeros_like.
  revert azi. induction ele as [|e ele IH]; intros [|a azi] Hlen;
    simpl in Hlen; try discriminate; [done|].
  cbn [map zip_with]. rewrite IH by lia. reflexivity.
Qed.

Lemma get_direction_idx_closed {Row} (encode : string → Row) c library self
    (ele azi dis : list Q) :
  Built encode c library self →
  length azi = length ele →
  get_direction_idx self ele azi dis = Ok (zip_with (sample_direction c) ele azi).
Proof.
  intros HB Hlen.
  destruct (built_bijection _ _ _ _ HB) as (_ & _ & _ & _ & Hidx).
  pose proof (built_names _ _ _ _ HB) as Hnames.
  pose proof (built_conditions _ _ _ _ HB) as Hconds.
  unfold get_direction_idx.
  destruct (directions self) as [|d0 [|d1 [|d2 [|d3 [|d4 tl]]]]];
    try discriminate Hnames.
  injection Hnames as N0 N1 N2 N3. injection Hconds as C0 C1 C2 C3.
  pose proof (Hidx 0%nat d0 eq_refl) as I0.
  pose proof (Hidx 1%nat d1 eq_refl) as I1.
  pose proof (Hidx 2%nat d2 eq_refl) as I2.
  pose proof (Hidx 3%nat d3 eq_refl) as I3.
  cbn [direction_loop]. unfold direction_step.
  rewrite I0, I1, I2, I3, C0, C1, C2, C3. cbn [of_option rbind].
  assert (L0 : length (side_condition ele azi dis) = length ele)
    by (unfold side_condition, Tensor.ones_like; by rewrite length_map).
  assert (L1 : length (front_condition c ele azi dis) = length ele)
    by (unfold front_condition, Tensor.and, Tensor.gt, Tensor.lt;
        rewrite length_zip_with, !length_map; lia).
  assert (L2 : length (back_condition c ele azi dis) = length ele)
    by (unfold back_condition, Tensor.or, Tensor.gt, Tensor.lt;
        rewrite length_zip_with, !length_map; lia).
  assert (L3 : length (overhead_condition c ele azi dis) = length ele)
    by (unfold overhead_condition, Tensor.gt; by rewrite length_map).
  assert (Z : length (Tensor.zeros_like ele) = length ele)
    by (unfold Tensor.zeros_like; by rewrite length_map).
  rewrite masked_fill_ok by lia. cbn [rbind].
  rewrite masked_fill_ok by (rewrite length_zip_with; lia). cbn [rbind].
  rewrite masked_fill_ok by (rewrite !length_zip_with; lia). cbn [rbind].
  rewrite masked_fill_ok by (rewrite !length_zip_with; lia). cbn [rbind].
  f_equal. by apply overwrite_chain.
Qed.

Lemma sample_direction_lookup (c : Config.t) (ele azi : list Q) (i : nat)
    (e : Q) :
  length azi = length ele → ele !! i = Some e →
  ∃ a, azi !! i = Some a ∧
       zip_with (sample_direction c) ele azi !! i
       = Some (sample_direction c e a).
Proof.
  intros Hlen He.
  destruct (lookup_lt_is_Some_2 azi i) as [a Ha].
  { rewrite Hlen. by eapply lookup_lt_Some. }
  exists a. split; [done|]. rewrite lookup_zip_with, He, Ha. done.
Qed.

(** When the front interval lies between the two back bounds, the front
    and the back regions do not overlap. *)
Lemma front_back_disjoint (c : Config.t) (a : Q) :
  (front_hi c <= back_hi c)%Q → (back_lo c <= front_lo c)%Q →
  in_front_interval c a →
  (a <= back_hi c)%Q ∧ (back_lo c <= a)%Q.
Proof. intros H1 H2 [H3 H4]. split; lra. Qed.

(** ** Sample processors *)

(** ** Direction selection *)

(** C5, amended. A sample whose elevation is strictly above
    [overhead_threshold] as the comparison sees it, that is rounded to the
    single precision of the tensor, gets the index of [overhead], whatever
    its azimuth: [overhead] is the last row of the table, and the loop
    overwrites in table order. *)
Theorem overhead_overrides {Row} (encode : string → Row) (c : Config.t)
    (library : PromptLibrary) (self : PromptProcessor Row)
    (ele azi dis : list Q) (i : nat) (e : Q) :
  configure encode c library = Ok self →
  length azi = length ele →
  ele !! i = Some e →
  (Float.binary32 (Config.overhead_threshold c) < e)%Q →
  ∃ idx k,
    get_direction_idx self ele azi dis = Ok idx ∧
    direction2idx self !! "overhead" = Some k ∧
    idx !! i = Some k ∧
    DirectionConfig.name <$> last (directions self) = Some "overhead" ∧
    S k = length (directions self).
Proof.
  intros Hcfg Hlen He Hgt. apply configure_built in Hcfg as HB.
  destruct (sample_direction_lookup c ele azi i e Hlen He) as (a & Ha & Hi).
  exists (zip_with (sample_direction c) ele azi), 3%nat.
  split; [by eapply get_direction_idx_closed|].
  destruct (built_bijection _ _ _ _ HB) as (_ & _ & _ & _ & Hidx).
  pose proof (built_names _ _ _ _ HB) as Hnames.
  destruct (directions self) as [|d0 [|d1 [|d2 [|d3 [|d4 tl]]]]];
    try discriminate Hnames.
  injection Hnames as N0 N1 N2 N3.
  repeat split.
  - rewrite <- N3. by apply Hidx.
  - rewrite Hi. unfold sample_direction, overhead_bound.
    by rewrite (proj2 (Qgtb_iff _ _) Hgt).
  - simpl. by rewrite N3.
Qed.

(** C4, amended. The thresholds are taken as the comparisons see them:
    each scalar rounded to the single precision of the tensors,
    [180 - back_threshold] and [-180 + back_threshold] computed in double
    precision first.  A sample whose azimuth is strictly between
    [-front_threshold] and [front_threshold], not beyond either back bound,
    and whose elevation is not above [overhead_threshold] gets the index
    of [front]. *)
Theorem front_direction {Row} (encode : string → Row) (c : Config.t)
    (library : PromptLibrary) (self : PromptProcessor Row)
    (ele azi dis : list Q) (i : nat) (e a : Q) :
  configure encode c library = Ok self →
  length azi = length ele →
  ele !! i = Some e → azi !! i = Some a →
  (Float.binary32 (- Config.front_threshold c) < a)%Q →
  (a < Float.binary32 (Config.front_threshold c))%Q →
  (e <= Float.binary32 (Config.overhead_threshold c))%Q →
  (a <= Float.binary32 (Float.binary64 (180 - Config.back_threshold c)))%Q →
  (Float.binary32 (Float.binary64 (- (180) + Config.back_threshold c)) <= a)%Q →
  ∃ idx k,
    get_direction_idx self ele azi dis = Ok idx ∧
    direction2idx self !! "front" = Some k ∧
    idx !! i = Some k.
Proof.
  intros Hcfg Hlen He Ha Hlo Hhi Hele Hb1 Hb2.
  apply configure_built in Hcfg as HB.
  destruct (sample_direction_lookup c ele azi i e Hlen He) as (a' & Ha' & Hi).
  assert (a' = a) as -> by congruence.
  exists (zip_with (sample_direction c) ele azi), 1%nat.
  split; [by eapply get_direction_idx_closed|].
  destruct (built_bijection _ _ _ _ HB) as (_ & _ & _ & _ & Hidx).
  pose proof (built_names _ _ _ _ HB) as Hnames.
  destruct (directions self) as [|d0 [|d1 [|d2 [|d3 [|d4 tl]]]]];
    try discriminate Hnames.
  injection Hnames as N0 N1 N2 N3.
  split.
  - rewrite <- N1. by apply Hidx.
  - rewrite Hi.
    unfold sample_direction, overhead_bound, back_hi, back_lo, front_lo,
      front_hi.
    rewrite (proj2 (Qgtb_false_iff _ _) Hele).
    rewrite (proj2 (Qgtb_false_iff _ _) Hb1).
    rewrite (proj2 (Qltb_false_iff _ _) Hb2).
    rewrite (proj2 (Qgtb_iff _ _) Hlo).
    by rewrite (proj2 (Qltb_iff _ _) Hhi).
Qed.

(** On a configured processor every index of the loop is a row of both
    per-direction tables. *)
Lemma built_gather {Row} (encode : string → Row) c library self
    (ele azi dis : list Q) (idx : list nat) :
  Built encode c library self →
  get_direction_idx self ele azi dis = Ok idx →
  Forall (λ k, (k < length (directions self))%nat) idx ∧
  (∃ rows, Tensor.index (text_embeddings_vd self) idx = Ok rows) ∧
  (∃ rows, Tensor.index (uncond_text_embeddings_vd self) idx = Ok rows).
Proof.
  intros HB Hidx.
  destruct (built_bijection _ _ _ _ HB) as (_ & Hrange & _).
  destruct (built_rows _ _ _ _ HB) as [Hvd Huvd].
  unfold get_direction_idx in Hidx.
  apply (direction_loop_bound self ele azi dis Hrange) in Hidx as [Hb _].
  - split; [done|]. split; apply index_ok; by rewrite ?Hvd, ?Huvd.
  - unfold Tensor.zeros_like. apply Forall_forall. intros k Hk.
    apply list_elem_of_fmap in Hk as (x & -> & _).
    rewrite (built_length _ _ _ _ HB). lia.
Qed.

(** C10. On a configured processor every index the direction loop produces
    is a row of the table, so both gathers succeed and [__call__] never
    raises the out-of-range error; for a batch whose azimuth and elevation
    have the same length the loop does produce its indices. *)
Theorem direction_idx_in_range {Row} (encode : string → Row) (c : Config.t)
    (library : PromptLibrary) (self : PromptProcessor Row)
    (ele azi dis : list Q) :
  configure encode c library = Ok self →
  (length azi = length ele →
     is_ok (get_direction_idx self ele azi dis) = true) ∧
  (∀ idx, get_direction_idx self ele azi dis = Ok idx →
     Forall (λ k, (k < length (directions self))%nat) idx ∧
     is_ok (Tensor.index (text_embeddings_vd self) idx) = true ∧
     is_ok (Tensor.index (uncond_text_embeddings_vd self) idx) = true) ∧
  __call__ self ele azi dis ≠ Raise IndexError_out_of_range.
Proof.
  intros Hcfg. apply configure_built in Hcfg as HB.
  pose proof (λ idx, built_gather encode c library self ele azi dis idx HB)
    as Hgather.
  split; [|split].
  - intros Hlen. by rewrite (get_direction_idx_closed _ _ _ _ _ _ _ HB Hlen).
  - intros idx Hidx. destruct (Hgather idx Hidx) as (Hb & [r1 H1] & [r2 H2]).
    by rewrite H1, H2.
  - unfold __call__, call_blocks.
    destruct (Config.view_dependent_prompting (cfg self)).
    + destruct (get_direction_idx self ele azi dis) as [idx|e] eqn:Hidx;
        cbn [rbind].
      * destruct (Hgather idx eq_refl) as (_ & [r1 H1] & [r2 H2]).
        by rewrite H1, H2.
      * apply direction_loop_raise in Hidx as [-> | [n ->]]; discriminate.
    + rewrite (built_base _ _ _ _ HB), (built_uncond _ _ _ _ HB).
      by rewrite !expand_single.
Qed.

(** ** The output of [__call__] *)

(** C1. On a configured processor and a batch of [B] samples, [__call__]
    returns [2 * B] rows: the [B] conditional rows first, the [B]
    unconditional rows last.  With view-dependent prompting the rows of
    sample [i] are the rows of its direction index in the two per-direction
    tables; without it they are the base embeddings. *)
Theorem call_layout {Row} (encode : string → Row) (c : Config.t)
    (library : PromptLibrary) (self : PromptProcessor Row)
    (ele azi dis : list Q) :
  configure encode c library = Ok self →
  length azi = length ele →
  ∃ cond uncond out,
    call_blocks self ele azi dis = Ok (cond, uncond) ∧
    __call__ self ele azi dis = Ok out ∧
    length out = (2 * length ele)%nat ∧
    take (length ele) out = cond ∧
    drop (length ele) out = uncond ∧
    length cond = length ele ∧
    length uncond = length ele ∧
    if Config.view_dependent_prompting c
    then ∃ idx,
           get_direction_idx self ele azi dis = Ok idx ∧
           ∀ i k, idx !! i = Some k →
             is_Some (cond !! i) ∧
             cond !! i = text_embeddings_vd self !! k ∧
             uncond !! i = uncond_text_embeddings_vd self !! k
    else cond = replicate (length ele) (encode (prompt self)) ∧
         uncond = replicate (length ele) (encode (negative_prompt self)).
Proof.
  intros Hcfg Hlen. apply configure_built in Hcfg as HB.
  pose proof (λ idx, built_gather encode c library self ele azi dis idx HB)
    as Hgather.
  assert (Hout : ∀ cond uncond : list Row,
            length cond = length ele → length uncond = length ele →
            length (Tensor.cat cond uncond) = (2 * length ele)%nat ∧
            take (length ele) (Tensor.cat cond uncond) = cond ∧
            drop (length ele) (Tensor.cat cond uncond) = uncond).
  { intros cond uncond H1 H2. unfold Tensor.cat. rewrite <- H1.
    rewrite length_app, take_app_length, drop_app_length. split; [lia|done]. }
  unfold __call__, call_blocks. rewrite (built_cfg _ _ _ _ HB).
  destruct (Config.view_dependent_prompting c).
  - rewrite (get_direction_idx_closed _ _ _ _ _ _ _ HB Hlen) in *.
    cbn [rbind].
    destruct (Hgather _ eq_refl) as (_ & [cond Hcond] & [uncond Huncond]).
    rewrite Hcond, Huncond. cbn [rbind fst snd].
    apply index_inv in Hcond as [Lc Rc]. apply index_inv in Huncond as [Lu Ru].
    assert (Lz : length (zip_with (sample_direction c) ele azi) = length ele)
      by (rewrite length_zip_with; lia).
    rewrite Lz in Lc, Lu.
    destruct (Hout cond uncond Lc Lu) as (O1 & O2 & O3).
    exists cond, uncond, (Tensor.cat cond uncond).
    repeat split; try done.
    eexists. split; [done|]. intros i k Hk.
    destruct (Rc i k Hk) as [S1 E1]. destruct (Ru i k Hk) as [S2 E2].
    rewrite E1. done.
  - rewrite (built_base _ _ _ _ HB), (built_uncond _ _ _ _ HB).
    rewrite !expand_single. cbn [rbind fst snd].
    destruct (Hout (replicate (length ele) (encode (prompt self)))
                   (replicate (length ele) (encode (negative_prompt self))))
      as (O1 & O2 & O3); [by rewrite length_replicate..|].
    do 3 eexists. repeat split; try done; by rewrite length_replicate.
Qed.

(** C8. With view-dependent prompting switched off, [__call__] on a batch of
    [B] samples returns [B] copies of the base conditional embedding
    followed by [B] copies of the base unconditional embedding. *)
Theorem call_broadcast {Row} (encode : string → Row) (c : Config.t)
    (library : PromptLibrary) (self : PromptProcessor Row)
    (ele azi dis : list Q) :
  configure encode c library = Ok self →
  Config.view_dependent_prompting c = false →
  ∃ base ubase out,
    text_embeddings self = [base] ∧
    uncond_text_embeddings self = [ubase] ∧
    __call__ self ele azi dis = Ok out ∧
    length out = (2 * length ele)%nat ∧
    ∀ i, (i < length ele)%nat →
      out !! i = Some base ∧ out !! (length ele + i)%nat = Some ubase.
Proof.
  intros Hcfg Hvd. apply configure_built in Hcfg as HB.
  exists (encode (prompt self)), (encode (negative_prompt self)).
  exists (Tensor.cat (replicate (length ele) (encode (prompt self)))
            (replicate (length ele) (encode (negative_prompt self)))).
  unfold Tensor.cat at 2 3 4.
  split; [apply (built_base _ _ _ _ HB)|].
  split; [apply (built_uncond _ _ _ _ HB)|].
  split; [|split].
  - unfold __call__, call_blocks.
    rewrite (built_cfg _ _ _ _ HB), Hvd.
    rewrite (built_base _ _ _ _ HB), (built_uncond _ _ _ _ HB).
    by rewrite !expand_single.
  - rewrite length_app, !length_replicate. lia.
  - intros i Hi. split.
    + rewrite lookup_app_l by (by rewrite length_replicate).
      by apply lookup_replicate_2.
    + rewrite lookup_app_r by (rewrite length_replicate; lia).
      rewrite length_replicate. apply lookup_replicate_2. lia.
Qed.

(** ** Invariants of the configured processor *)

(** C9. Once [configure] has returned, in either mode, and after any
    sequence of calls: the direction table has as many entries as
    [text_embeddings_vd] and [uncond_text_embeddings_vd] have rows, and
    [direction2idx] is a bijection between the direction names and the row
    indices. *)
Theorem configured_invariant {Row} (encode : string → Row) (c : Config.t)
    (library : PromptLibrary) (self : PromptProcessor Row)
    (calls : list Pose) :
  configure encode c library = Ok self →
  length (directions (lifetime self calls))
    = length (text_embeddings_vd (lifetime self calls)) ∧
  length (directions (lifetime self calls))
    = length (uncond_text_embeddings_vd (lifetime self calls)) ∧
  direction2idx_bijection (directions (lifetime self calls))
    (direction2idx (lifetime self calls)).
Proof.
  intros Hcfg. apply configure_built in Hcfg as HB.
  rewrite lifetime_unchanged.
  destruct (built_rows _ _ _ _ HB) as [Hvd Huvd].
  split; [done|]. split; [done|]. by eapply built_bijection.
Qed.

(** ** Which prompts reach the encoder *)

(** C3, amended. [configure] resolves the prompt through the resolver and
    takes the negative prompt as provided: no library lookup is made for
    it, and the base embeddings are those of the resolved prompt and of the
    negative prompt as configured. *)
Theorem configure_resolves_prompt_only {Row} (encode : string → Row)
    (c : Config.t) (library : PromptLibrary) (self : PromptProcessor Row) :
  configure encode c library = Ok self →
  preprocess_prompt library (Config.prompt c) = Ok (prompt self) ∧
  negative_prompt self = Config.negative_prompt c ∧
  text_embeddings self = [encode (prompt self)] ∧
  uncond_text_embeddings self = [encode (Config.negative_prompt c)].
Proof.
  intros Hcfg. apply configure_built in Hcfg as HB.
  split; [apply (built_prompt _ _ _ _ HB)|].
  split; [apply (built_negative _ _ _ _ HB)|].
  split; [apply (built_base _ _ _ _ HB)|].
  rewrite <- (built_negative _ _ _ _ HB). apply (built_uncond _ _ _ _ HB).
Qed.

(** In side-suffix mode the strings handed to the encoder are the resolved
    prompt followed by the direction fragment. *)
Lemma suffix_mode_prompts {Row} (encode : string → Row) (c : Config.t)
    (library : PromptLibrary) (self : PromptProcessor Row) :
  configure encode c library = Ok self →
  Config.view_dependent_prompt_front c = false →
  text_embeddings_vd self =
    encode <$> ((λ d, prompt self +:+ " " +:+ DirectionConfig.prompt d)
                  <$> directions self).
Proof.
  intros Hcfg Hmode. apply configure_built in Hcfg as HB.
  rewrite (built_vd _ _ _ _ HB). by rewrite Hmode.
Qed.

(** In front-aware mode they are the direction fragment followed by the
    prompt as configured, not as resolved. *)
Lemma front_mode_prompts {Row} (encode : string → Row) (c : Config.t)
    (library : PromptLibrary) (self : PromptProcessor Row) :
  configure encode c library = Ok self →
  Config.view_dependent_prompt_front c = true →
  text_embeddings_vd self =
    encode <$> ((λ d, DirectionConfig.prompt d +:+ " "
                      +:+ Config.prompt c +:+ " ") <$> directions self).
Proof.
  intros Hcfg Hmode. apply configure_built in Hcfg as HB.
  rewrite (built_vd _ _ _ _ HB). by rewrite Hmode.
Qed.

(** * Further properties of the resolver *)

Lemma prefix_empty (s : string) : String.prefix EmptyString s = true.
Proof. by destruct s. Qed.

Lemma contains_empty (s : string) : Str.contains s EmptyString = true.
Proof. destruct s; cbn [Str.contains]; by rewrite prefix_empty. Qed.

Lemma lower_ascii_idemp (c : ascii) :
  Str.lower_ascii (Str.lower_ascii c) = Str.lower_ascii c.
Proof. destruct c as [[] [] [] [] [] [] [] []]; reflexivity. Qed.

Lemma lower_idemp (s : string) : Str.lower (Str.lower s) = Str.lower s.
Proof.
  induction s as [|c s IH]; simpl; [done|].
  by rewrite lower_ascii_idemp, IH.
Qed.

(** The resolver on a [lib:] query, by the list of matching candidates. *)
Lemma preprocess_prompt_by_hits (library : PromptLibrary) (p : string)
    (candidates : list string) :
  Str.startswith p "lib:" = true →
  library !! "dreamfusion" = Some candidates →
  preprocess_prompt library p =
    match List.filter (matches_keywords (keywords_of p)) candidates with
    | [] => Raise (ValueError_not_found (keywords_of p))
    | [c] => Ok c
    | _ :: _ :: _ => Raise (ValueError_multiple (keywords_of p))
    end.
Proof.
  intros Hlib Hcat. unfold preprocess_prompt. rewrite Hlib, Hcat.
  cbn [of_option rbind]. fold (keywords_of p). rewrite scan_free.
  by destruct (List.filter _ candidates) as [|c [|c' tl]].
Qed.

Lemma matches_keywords_iff (keywords : list string) (prompt : string) :
  matches_keywords keywords prompt = true ↔
  ∀ k, k ∈ keywords → Str.contains (L prompt) k = true.
Proof.
  unfold matches_keywords. rewrite forallb_forall.
  split; intros H k Hk; apply H; by apply list_elem_of_In.
Qed.

Lemma filter_Permutation_bool {A} (f : A → bool) (l l' : list A) :
  l ≡ₚ l' → List.filter f l ≡ₚ List.filter f l'.
Proof.
  induction 1 as [|x l l' _ IH|x y l|l1 l2 l3 _ IH1 _ IH2]; simpl.
  - done.
  - destruct (f x); by rewrite IH.
  - destruct (f x), (f y); try done. apply perm_swap.
  - by etrans.
Qed.

(** X1. A value returned for a [lib:] query is an entry of the
    [dreamfusion] list, in its original spelling; its lower-cased text
    contains every keyword; and it is the only entry that does. *)
Theorem resolved_prompt_sound (library : PromptLibrary) (p c : string)
    (candidates : list string) :
  Str.startswith p "lib:" = true →
  library !! "dreamfusion" = Some candidates →
  preprocess_prompt library p = Ok c →
  c ∈ candidates ∧
  (∀ k, k ∈ keywords_of p →
     ∃ before after, L c = before +:+ k +:+ after) ∧
  List.filter (matches_keywords (keywords_of p)) candidates = [c].
Proof.
  intros Hlib Hcat. rewrite (preprocess_prompt_by_hits _ _ _ Hlib Hcat).
  destruct (List.filter _ candidates) as [|c0 [|c1 tl]] eqn:Hhits;
    [discriminate | | discriminate].
  intros [= ->].
  assert (Hin : In c (List.filter (matches_keywords (keywords_of p)) candidates))
    by (rewrite Hhits; by left).
  apply filter_In in Hin as [Hin Hmatch].
  split; [by apply list_elem_of_In|]. split; [|done].
  intros k Hk. apply contains_iff.
  by apply (proj1 (matches_keywords_iff _ _) Hmatch).
Qed.

(** X2. The order of the entries in the library is irrelevant: two
    libraries whose [dreamfusion] lists are permutations of each other
    resolve every prompt to the same value or the same error. *)
Theorem library_order_irrelevant (library library' : PromptLibrary)
    (p : string) (candidates candidates' : list string) :
  library !! "dreamfusion" = Some candidates →
  library' !! "dreamfusion" = Some candidates' →
  candidates ≡ₚ candidates' →
  preprocess_prompt library p = preprocess_prompt library' p.
Proof.
  intros Hcat Hcat' Hperm.
  destruct (Str.startswith p "lib:") eqn:Hlib.
  - rewrite (preprocess_prompt_by_hits _ _ _ Hlib Hcat).
    rewrite (preprocess_prompt_by_hits _ _ _ Hlib Hcat').
    pose proof (filter_Permutation_bool
                  (matches_keywords (keywords_of p)) _ _ Hperm) as Hhits.
    destruct (List.filter _ candidates) as [|c [|c1 tl]].
    + by apply Permutation_nil_l in Hhits as <-.
    + by apply Permutation_singleton_l in Hhits as <-.
    + pose proof (Permutation_length Hhits) as Hlen.
      destruct (List.filter _ candidates') as [|d [|d1 tl']];
        simpl in Hlen; [lia | lia | done].
  - unfold preprocess_prompt. by rewrite Hlib.
Qed.

(** X3. Only the set of keywords matters: two [lib:] queries with the same
    keywords, in any order and with any repetition, are resolved to the
    same entry, and one succeeds exactly when the other does. *)
Theorem keyword_order_irrelevant (library : PromptLibrary) (p p' : string)
    (candidates : list string) :
  Str.startswith p "lib:" = true →
  Str.startswith p' "lib:" = true →
  library !! "dreamfusion" = Some candidates →
  (∀ k, k ∈ keywords_of p ↔ k ∈ keywords_of p') →
  (∀ c, preprocess_prompt library p = Ok c ↔
        preprocess_prompt library p' = Ok c) ∧
  is_ok (preprocess_prompt library p) = is_ok (preprocess_prompt library p').
Proof.
  intros Hlib Hlib' Hcat Hsame.
  rewrite (preprocess_prompt_by_hits _ _ _ Hlib Hcat).
  rewrite (preprocess_prompt_by_hits _ _ _ Hlib' Hcat).
  assert (Hext : ∀ c, matches_keywords (keywords_of p) c
                      = matches_keywords (keywords_of p') c).
  { intros c. apply eq_true_iff_eq. rewrite !matches_keywords_iff.
    split; intros H k Hk; apply H; by apply Hsame. }
  rewrite (List.filter_ext _ _ Hext).
  by destruct (List.filter _ candidates) as [|c [|c1 tl]].
Qed.

Lemma lib_query_prefix (q : string) :
  Str.startswith ("lib:" +:+ q) "lib:" = true.
Proof. by destruct q. Qed.

Lemma lib_query_drop (q : string) : Str.drop 4 ("lib:" +:+ q) = q.
Proof. reflexivity. Qed.

(** X4. The query is case-insensitive: a [lib:] query and its lower-cased
    form give the same result, error payload included. *)
Theorem query_case_insensitive (library : PromptLibrary) (q : string) :
  preprocess_prompt library ("lib:" +:+ q)
  = preprocess_prompt library ("lib:" +:+ L q).
Proof.
  unfold preprocess_prompt.
  rewrite !lib_query_prefix, !lib_query_drop. by rewrite lower_idempotent.
Qed.

(** X5. An empty keyword matches every entry.  A query whose fields are all
    empty ([lib:], [lib:_], ...) therefore returns the entry of a
    one-entry library, and fails on any other: not found on an empty
    list, multiple matches on two or more entries. *)
Theorem empty_query_matches_all (library : PromptLibrary) (p : string)
    (candidates : list string) :
  Str.startswith p "lib:" = true →
  library !! "dreamfusion" = Some candidates →
  Forall (λ k, k = EmptyString) (keywords_of p) →
  preprocess_prompt library p =
    match candidates with
    | [] => Raise (ValueError_not_found (keywords_of p))
    | [c] => Ok c
    | _ :: _ :: _ => Raise (ValueError_multiple (keywords_of p))
    end.
Proof.
  intros Hlib Hcat Hempty.
  rewrite (preprocess_prompt_by_hits _ _ _ Hlib Hcat).
  assert (Hall : List.filter (matches_keywords (keywords_of p)) candidates
                 = candidates).
  { apply forallb_filter_id. apply forallb_forall. intros c _.
    apply matches_keywords_iff. intros k Hk.
    rewrite Forall_forall in Hempty. rewrite (Hempty k Hk).
    apply contains_empty. }
  by rewrite Hall.
Qed.

(** ** Splitting the query *)

Lemma split_cons (sep c : ascii) (s : string) :
  Str.split sep (String c s) =
    if Ascii.eqb c sep then EmptyString :: Str.split sep s
    else match Str.split sep s with
         | w :: ws => String c w :: ws
         | [] => [String c EmptyString]
         end.
Proof. reflexivity. Qed.

Lemma split_nonempty (sep : ascii) (s : string) : Str.split sep s ≠ [].
Proof.
  induction s as [|c s IH]; [done|]. rewrite split_cons.
  destruct (Ascii.eqb c sep); [done|]. by destruct (Str.split sep s).
Qed.

Lemma join_with_cons (sep : ascii) (a b : string) (l : list string) :
  join_with sep (a :: b :: l) = a +:+ String sep (join_with sep (b :: l)).
Proof. reflexivity. Qed.

(** Splitting loses nothing: joining the fields with the separator gives
    the string back; there is one field more than there are separators;
    and no field contains the separator. *)
Lemma split_join (sep : ascii) (s : string) :
  join_with sep (Str.split sep s) = s ∧
  length (Str.split sep s) = S (count_char sep s) ∧
  Forall (λ w, count_char sep w = 0%nat) (Str.split sep s).
Proof.
  induction s as [|c s (IHj & IHl & IHf)]; [by repeat constructor|].
  rewrite split_cons. pose proof (split_nonempty sep s) as Hne.
  cbn [count_char].
  destruct (Ascii.eqb c sep) eqn:E.
  - apply Ascii.eqb_eq in E as ->.
    destruct (Str.split sep s) as [|w ws]; [done|].
    split; [|split].
    + by rewrite join_with_cons, IHj.
    + cbn [length] in *. lia.
    + by constructor.
  - destruct (Str.split sep s) as [|w ws]; [done|].
    split; [|split].
    + revert IHj. destruct ws as [|w' ws]; rewrite ?join_with_cons;
        intros <-; reflexivity.
    + cbn [length] in *. lia.
    + inversion IHf as [|? ? Hw Hws]; subst. constructor; [|done].
      cbn [count_char]. by rewrite E, Hw.
Qed.

(** X6. The keywords of a query are the lower-cased text after [lib:] cut
    at the underscores, nothing lost: joined with [_] they give that text
    back, there is one keyword more than there are underscores (so at
    least one, also for the bare [lib:]), and no keyword contains an
    underscore. *)
Theorem keywords_roundtrip (p : string) :
  join_with "_" (keywords_of p) = L (Str.drop 4 p) ∧
  length (keywords_of p) = S (count_char "_" (L (Str.drop 4 p))) ∧
  Forall (λ k, count_char "_" k = 0%nat) (keywords_of p).
Proof. apply split_join. Qed.

Lemma matches_keywords_spec (keywords : list string) (c : string) :
  matches_keywords keywords c = true ↔ contains_all keywords c.
Proof.
  rewrite matches_keywords_iff. unfold contains_all.
  split; intros H k Hk; apply contains_iff; by apply H.
Qed.

Lemma filter_none {A} (f : A → bool) (l : list A) :
  (∀ x, x ∈ l → f x = false) → List.filter f l = [].
Proof.
  induction l as [|x l IH]; intros H; [done|]. simpl.
  rewrite (H x) by (by left). apply IH. intros y Hy. apply H. by right.
Qed.

Lemma filter_two {A} (f : A → bool) (l1 l2 l3 : list A) (c1 c2 : A) :
  f c1 = true → f c2 = true →
  (2 <= length (List.filter f (app l1 (c1 :: app l2 (c2 :: l3)))))%nat.
Proof.
  intros H1 H2. rewrite List.filter_app. cbn [List.filter].
  rewrite H1, List.filter_app. cbn [List.filter]. rewrite H2.
  rewrite length_app. cbn [length]. rewrite length_app. cbn [length]. lia.
Qed.

(** C6. For a prompt starting with [lib:] the keywords are the text after
    the prefix, lower-cased and cut at the underscores (they are not
    empty as a list, contain no underscore, and joined with [_] give that
    text back), and the [dreamfusion] list is scanned.  A candidate
    matches when every keyword is a substring of its lower-cased text.  If
    exactly one candidate of the list matches, it is returned; if none
    matches, the not-found error is raised; if two or more match, the
    multiple-match error is raised; so no value is returned in the last
    two cases. *)
Theorem preprocess_prompt_lib (library : PromptLibrary) (p : string)
    (candidates : list string) :
  Str.startswith p "lib:" = true →
  library !! "dreamfusion" = Some candidates →
  keywords_of p ≠ [] ∧
  join_with "_" (keywords_of p) = L (Str.drop 4 p) ∧
  Forall (λ k, count_char "_" k = 0%nat) (keywords_of p) ∧
  (∀ l1 c l2,
     candidates = app l1 (c :: l2) →
     contains_all (keywords_of p) c →
     (∀ c', c' ∈ app l1 l2 → ¬ contains_all (keywords_of p) c') →
     preprocess_prompt library p = Ok c) ∧
  ((∀ c, c ∈ candidates → ¬ contains_all (keywords_of p) c) →
   preprocess_prompt library p
   = Raise (ValueError_not_found (keywords_of p))) ∧
  (∀ l1 c1 l2 c2 l3,
     candidates = app l1 (c1 :: app l2 (c2 :: l3)) →
     contains_all (keywords_of p) c1 →
     contains_all (keywords_of p) c2 →
     preprocess_prompt library p
     = Raise (ValueError_multiple (keywords_of p))).
Proof.
  intros Hlib Hcat.
  rewrite (preprocess_prompt_by_hits _ _ _ Hlib Hcat).
  destruct (split_join "_" (L (Str.drop 4 p))) as (Hj & _ & Hf).
  assert (Hmiss : ∀ l, (∀ c', c' ∈ l → ¬ contains_all (keywords_of p) c') →
            List.filter (matches_keywords (keywords_of p)) l = []).
  { intros l H. apply filter_none. intros x Hx.
    apply not_true_is_false. rewrite matches_keywords_spec. by apply H. }
  split; [apply split_nonempty|]. split; [exact Hj|]. split; [exact Hf|].
  split; [|split].
  - intros l1 c l2 -> Hc Hrest.
    rewrite List.filter_app. cbn [List.filter].
    rewrite (proj2 (matches_keywords_spec _ _) Hc).
    rewrite (Hmiss l1), (Hmiss l2); [done | |];
      intros c' Hc'; apply Hrest; set_solver.
  - intros Hnone. by rewrite (Hmiss candidates Hnone).
  - intros l1 c1 l2 c2 l3 -> H1 H2.
    pose proof (filter_two (matches_keywords (keywords_of p)) l1 l2 l3 c1 c2
                  (proj2 (matches_keywords_spec _ _) H1)
                  (proj2 (matches_keywords_spec _ _) H2)) as Hlen.
    destruct (List.filter _ _) as [|x [|y tl]]; simpl in Hlen;
      [lia | lia | done].
Qed.

(** * Further properties of [configure] *)

(** X7. The failures of [configure], in the order of its steps.  An
    exception of [configure_text_encoder] is raised first; otherwise one
    of the library load; otherwise the error of the prompt lookup, before
    any text is encoded.  [configure] returns only if the encoder was
    configured, the library loaded and the encoder released.  When all
    outside steps return, [configure] raises exactly what the lookup
    raises, and a prompt without the [lib:] prefix configures under any
    library and is kept unchanged. *)
Theorem configure_failures {Row} (encode : string → Row) (c : Config.t)
    (library : PromptLibrary) :
  (∀ e, configure_text_encoder ext = Raise e →
        configure encode c library = Raise e) ∧
  (∀ e, configure_text_encoder ext = Ok tt →
        load_prompt_library ext = Raise e →
        configure encode c library = Raise e) ∧
  (∀ e, configure_text_encoder ext = Ok tt →
        load_prompt_library ext = Ok tt →
        preprocess_prompt library (Config.prompt c) = Raise e →
        configure encode c library = Raise e) ∧
  (∀ self, configure encode c library = Ok self →
        configure_text_encoder ext = Ok tt ∧
        load_prompt_library ext = Ok tt ∧
        destroy_text_encoder ext = Ok tt) ∧
  (configure_text_encoder ext = Ok tt →
   load_prompt_library ext = Ok tt →
   (∀ p n, text_encoder_raises ext p n = Ok tt) →
   destroy_text_encoder ext = Ok tt →
   (∀ e, configure encode c library = Raise e ↔
         preprocess_prompt library (Config.prompt c) = Raise e) ∧
   (Str.startswith (Config.prompt c) "lib:" = false →
    ∃ self, configure encode c library = Ok self ∧
            prompt self = Config.prompt c)).
Proof.
  unfold configure, get_text_embeddings.
  split; [|split; [|split; [|split]]].
  - by intros e ->.
  - by intros e -> ->.
  - by intros e -> -> ->.
  - intros self.
    destruct (configure_text_encoder ext) as [[]|]; cbn [rbind];
      [|discriminate].
    destruct (load_prompt_library ext) as [[]|]; cbn [rbind]; [|discriminate].
    destruct (preprocess_prompt library (Config.prompt c)) as [p|];
      cbn [rbind]; [|discriminate].
    destruct (text_encoder_raises ext [p] _) as [[]|]; cbn [rbind];
      [|discriminate].
    destruct (Config.view_dependent_prompt_front c);
      (destruct (text_encoder_raises ext _ _) as [[]|]; cbn [rbind];
         [|discriminate]);
      by destruct (destroy_text_encoder ext) as [[]|].
  - intros H1 H2 H3 H4. rewrite H1, H2. cbn [rbind]. split.
    + intros e.
      destruct (preprocess_prompt library (Config.prompt c)) as [p|e'];
        cbn [rbind]; [|split; by intros [= ->]].
      rewrite H3. cbn [rbind].
      destruct (Config.view_dependent_prompt_front c); rewrite H3;
        cbn [rbind]; rewrite H4; split; discriminate.
    + intros Hplain. unfold preprocess_prompt. rewrite Hplain.
      cbn [rbind]. rewrite H3. cbn [rbind].
      destruct (Config.view_dependent_prompt_front c); rewrite H3;
        cbn [rbind]; rewrite H4; by eexists.
Qed.

(** The strings handed to the encoder for the four directions. *)
Lemma built_view_prompts {Row} (encode : string → Row) c library self :
  Built encode c library self →
  text_embeddings_vd self
  = encode <$> view_prompts (Config.view_dependent_prompt_front c)
                 (if Config.view_dependent_prompt_front c
                  then Config.prompt c else prompt self) ∧
  uncond_text_embeddings_vd self
  = replicate 4 (encode (view_negative_prompt c)).
Proof.
  intros HB.
  rewrite (built_vd _ _ _ _ HB), (built_uncond_vd _ _ _ _ HB).
  rewrite (built_directions _ _ _ _ HB), (built_negative _ _ _ _ HB).
  unfold view_prompts, view_negative_prompt.
  by destruct (Config.view_dependent_prompt_front c).
Qed.

(** Side-suffix mode, or a prompt that is not a library query: the base of
    the per-direction texts is the resolved prompt. *)
Lemma built_view_prompts_resolved {Row} (encode : string → Row) c library
    self :
  Built encode c library self →
  (Config.view_dependent_prompt_front c = true →
   Str.startswith (Config.prompt c) "lib:" = false) →
  text_embeddings_vd self
  = encode <$> view_prompts (Config.view_dependent_prompt_front c)
                 (prompt self).
Proof.
  intros HB Hplain. rewrite (proj1 (built_view_prompts _ _ _ _ HB)).
  destruct (Config.view_dependent_prompt_front c); [|done].
  pose proof (built_prompt _ _ _ _ HB) as Hp.
  unfold preprocess_prompt in Hp. rewrite (Hplain eq_refl) in Hp.
  by injection Hp as <-.
Qed.

(** X8. The exact texts that are encoded for the four directions, when the
    mode is side-suffix or the prompt is not a library query.  In
    front-aware mode: [side view of], [front view of], [backside view of],
    [overhead view of], two spaces, the prompt, one space.  Otherwise: the
    resolved prompt, then [ , side view], [ , front view], [ , back view],
    [ , overhead view].  The row of a direction is the encoding of its
    text. *)
Theorem encoded_view_prompts {Row} (encode : string → Row) (c : Config.t)
    (library : PromptLibrary) (self : PromptProcessor Row) :
  configure encode c library = Ok self →
  (Config.view_dependent_prompt_front c = true →
   Str.startswith (Config.prompt c) "lib:" = false) →
  text_embeddings_vd self
  = encode <$> view_prompts (Config.view_dependent_prompt_front c)
                 (prompt self) ∧
  ∀ name k, direction2idx self !! name = Some k →
    ∃ text,
      view_prompts (Config.view_dependent_prompt_front c) (prompt self) !! k
      = Some text ∧
      text_embeddings_vd self !! k = Some (encode text).
Proof.
  intros Hcfg Hplain. apply configure_built in Hcfg as HB.
  pose proof (built_view_prompts_resolved _ _ _ _ HB Hplain) as Hvd.
  split; [done|]. intros name k Hk.
  destruct (built_bijection _ _ _ _ HB) as (_ & Hrange & _).
  apply Hrange in Hk. rewrite (built_length _ _ _ _ HB) in Hk.
  destruct (lookup_lt_is_Some_2
              (view_prompts (Config.view_dependent_prompt_front c)
                 (prompt self)) k) as [t Ht].
  { unfold view_prompts.
    by destruct (Config.view_dependent_prompt_front c). }
  exists t. split; [done|]. by rewrite Hvd, list_lookup_fmap, Ht.
Qed.

(** * Further properties of the direction selection *)

Lemma masked_fill_mismatch (t : list nat) (mask : list bool) (v : nat) :
  length mask ≠ length t →
  Tensor.masked_fill t mask v = Raise IndexError_mask_shape.
Proof.
  intros H. unfold Tensor.masked_fill.
  by rewrite (proj2 (Nat.eqb_neq _ _) H).
Qed.

(** When azimuth and elevation differ in length, the mask of [front] does
    not fit the index tensor. *)
Lemma get_direction_idx_mismatch {Row} (encode : string → Row) c library self
    (ele azi dis : list Q) :
  Built encode c library self →
  length azi ≠ length ele →
  get_direction_idx self ele azi dis = Raise IndexError_mask_shape.
Proof.
  intros HB Hlen.
  destruct (built_bijection _ _ _ _ HB) as (_ & _ & _ & _ & Hidx).
  pose proof (built_names _ _ _ _ HB) as Hnames.
  pose proof (built_conditions _ _ _ _ HB) as Hconds.
  unfold get_direction_idx.
  destruct (directions self) as [|d0 [|d1 [|d2 [|d3 [|d4 tl]]]]];
    try discriminate Hnames.
  injection Hconds as C0 C1 C2 C3.
  pose proof (Hidx 0%nat d0 eq_refl) as I0.
  pose proof (Hidx 1%nat d1 eq_refl) as I1.
  cbn [direction_loop]. unfold direction_step.
  rewrite I0, I1, C0, C1. cbn [of_option rbind].
  rewrite masked_fill_ok
    by (unfold side_condition, Tensor.ones_like, Tensor.zeros_like;
        by rewrite !length_map).
  cbn [rbind]. rewrite masked_fill_mismatch; [done|].
  unfold front_condition, side_condition, Tensor.and, Tensor.gt, Tensor.lt,
    Tensor.ones_like, Tensor.zeros_like.
  rewrite !length_zip_with, !length_map. lia.
Qed.

(** The index of sample [i], when the batch is well-shaped. *)
Lemma built_sample_index {Row} (encode : string → Row) c library self
    (ele azi dis : list Q) (i : nat) (e a : Q) :
  Built encode c library self →
  length azi = length ele →
  ele !! i = Some e → azi !! i = Some a →
  ∃ idx, get_direction_idx self ele azi dis = Ok idx ∧
         idx !! i = Some (sample_direction c e a).
Proof.
  intros HB Hlen He Ha.
  exists (zip_with (sample_direction c) ele azi).
  split; [by eapply get_direction_idx_closed|].
  by rewrite lookup_zip_with, He, Ha.
Qed.

Lemma built_name_index {Row} (encode : string → Row) c library self :
  Built encode c library self →
  direction2idx self !! "side" = Some 0%nat ∧
  direction2idx self !! "front" = Some 1%nat ∧
  direction2idx self !! "back" = Some 2%nat ∧
  direction2idx self !! "overhead" = Some 3%nat.
Proof.
  intros HB.
  destruct (built_bijection _ _ _ _ HB) as (_ & _ & _ & _ & Hidx).
  pose proof (built_names _ _ _ _ HB) as Hnames.
  destruct (directions self) as [|d0 [|d1 [|d2 [|d3 [|d4 tl]]]]];
    try discriminate Hnames.
  injection Hnames as <- <- <- <-.
  repeat split; by apply Hidx.
Qed.

Lemma Qgtb_false_not (x y : Q) : ¬ (y < x)%Q → Qgtb x y = false.
Proof. rewrite <- Qgtb_iff. by destruct (Qgtb x y). Qed.

Lemma Qltb_false_not (x y : Q) : ¬ (x < y)%Q → Qltb x y = false.
Proof. apply (Qgtb_false_not y x). Qed.

(** X9. [back] overrides [front]: a sample whose elevation is not above
    the overhead bound and whose azimuth is in the back region gets the
    index of [back], also when the azimuth is in the front interval as
    well.  Bounds and regions are those the comparisons see
    ([overhead_bound], [back_hi], [back_lo]: the thresholds after
    rounding). *)
Theorem back_overrides_front {Row} (encode : string → Row) (c : Config.t)
    (library : PromptLibrary) (self : PromptProcessor Row)
    (ele azi dis : list Q) (i : nat) (e a : Q) :
  configure encode c library = Ok self →
  length azi = length ele →
  ele !! i = Some e → azi !! i = Some a →
  (e <= overhead_bound c)%Q →
  in_back_region c a →
  ∃ idx k,
    get_direction_idx self ele azi dis = Ok idx ∧
    direction2idx self !! "back" = Some k ∧
    idx !! i = Some k.
Proof.
  intros Hcfg Hlen He Ha Hlow Hback. apply configure_built in Hcfg as HB.
  destruct (built_sample_index _ _ _ _ ele azi dis i e a HB Hlen He Ha)
    as (idx & Hidx & Hi).
  destruct (built_name_index _ _ _ _ HB) as (_ & _ & Hname & _).
  exists idx, 2%nat. split; [done|]. split; [done|].
  rewrite Hi. f_equal. unfold sample_direction.
  rewrite (proj2 (Qgtb_false_iff _ _) Hlow).
  destruct Hback as [H | H].
  - by rewrite (proj2 (Qgtb_iff _ _) H).
  - rewrite (proj2 (Qltb_iff _ _) H). by rewrite orb_true_r.
Qed.

(** X10. [side] is the default: a sample whose elevation is not above the
    overhead bound and whose azimuth is neither in the back region nor in
    the front interval gets index 0, the index of [side].  Bounds and
    regions are those the comparisons see (the thresholds after
    rounding). *)
Theorem side_is_default {Row} (encode : string → Row) (c : Config.t)
    (library : PromptLibrary) (self : PromptProcessor Row)
    (ele azi dis : list Q) (i : nat) (e a : Q) :
  configure encode c library = Ok self →
  length azi = length ele →
  ele !! i = Some e → azi !! i = Some a →
  (e <= overhead_bound c)%Q →
  ¬ in_back_region c a →
  ¬ in_front_interval c a →
  ∃ idx,
    get_direction_idx self ele azi dis = Ok idx ∧
    direction2idx self !! "side" = Some 0%nat ∧
    idx !! i = Some 0%nat.
Proof.
  intros Hcfg Hlen He Ha Hlow Hback Hfront.
  apply configure_built in Hcfg as HB.
  destruct (built_sample_index _ _ _ _ ele azi dis i e a HB Hlen He Ha)
    as (idx & Hidx & Hi).
  destruct (built_name_index _ _ _ _ HB) as (Hname & _).
  exists idx. split; [done|]. split; [done|].
  rewrite Hi. f_equal. unfold sample_direction.
  rewrite (proj2 (Qgtb_false_iff _ _) Hlow).
  rewrite (Qgtb_false_not a (back_hi c))
    by (intros H; apply Hback; by left).
  rewrite (Qltb_false_not a (back_lo c))
    by (intros H; apply Hback; by right).
  cbn [orb].
  destruct (Qgtb a (front_lo c)) eqn:E1; [|done].
  destruct (Qltb a (front_hi c)) eqn:E2; [|done].
  destruct Hfront. split; [by apply Qgtb_iff | by apply Qltb_iff].
Qed.

(** The direction loop of a configured processor, on every input. *)
Lemma get_direction_idx_total {Row} (encode : string → Row) c library self
    (ele azi dis : list Q) :
  Built encode c library self →
  get_direction_idx self ele azi dis =
    if decide (length azi = length ele)
    then Ok (zip_with (sample_direction c) ele azi)
    else Raise IndexError_mask_shape.
Proof.
  intros HB. case_decide.
  - by eapply get_direction_idx_closed.
  - by eapply get_direction_idx_mismatch.
Qed.

(** X11. With view-dependent prompting, a batch whose azimuth and
    elevation differ in length is refused with the mask-shape error; the
    length of [camera_distances] is never checked. *)
Theorem call_shape_error {Row} (encode : string → Row) (c : Config.t)
    (library : PromptLibrary) (self : PromptProcessor Row)
    (ele azi dis : list Q) :
  configure encode c library = Ok self →
  Config.view_dependent_prompting c = true →
  length azi ≠ length ele →
  __call__ self ele azi dis = Raise IndexError_mask_shape.
Proof.
  intros Hcfg Hvd Hlen. apply configure_built in Hcfg as HB.
  unfold __call__, call_blocks. rewrite (built_cfg _ _ _ _ HB), Hvd.
  by rewrite (get_direction_idx_mismatch _ _ _ _ _ _ _ HB Hlen).
Qed.

(** X12. [camera_distances] is never read: on a configured processor the
    result of [__call__], value or error, is the same for any two
    distance tensors, of any lengths. *)
Theorem camera_distances_ignored {Row} (encode : string → Row) (c : Config.t)
    (library : PromptLibrary) (self : PromptProcessor Row)
    (ele azi dis dis' : list Q) :
  configure encode c library = Ok self →
  __call__ self ele azi dis = __call__ self ele azi dis'.
Proof.
  intros Hcfg. apply configure_built in Hcfg as HB.
  unfold __call__, call_blocks.
  by rewrite !(get_direction_idx_total _ _ _ _ _ _ _ HB).
Qed.

Lemma Qopp_involutive_eq (x : Q) : (- - x)%Q = x.
Proof. destruct x as [n d]. unfold Qopp. simpl. by rewrite Z.opp_involutive. Qed.

(** Rounding is symmetric: the sign is set aside and restored. *)
Lemma round_opp (prec emin : Z) (q : Q) :
  Float.round prec emin (- q) = (- Float.round prec emin q)%Q.
Proof.
  destruct q as [[|n|n] d]; unfold Float.round; simpl; [done | done |].
  by rewrite Qopp_involutive_eq.
Qed.

Lemma back_lo_opp (c : Config.t) : back_lo c = (- back_hi c)%Q.
Proof.
  unfold back_lo, back_hi, Float.binary32, Float.binary64.
  rewrite <- !round_opp. do 2 f_equal.
  destruct (Config.back_threshold c) as [n d].
  unfold Qminus, Qplus, Qopp. simpl. f_equal. lia.
Qed.

Lemma front_lo_opp (c : Config.t) : front_lo c = (- front_hi c)%Q.
Proof. unfold front_lo, front_hi, Float.binary32. apply round_opp. Qed.

Lemma sample_direction_mirror (c : Config.t) (e a : Q) :
  sample_direction c e (- a) = sample_direction c e a.
Proof.
  unfold sample_direction. rewrite back_lo_opp, front_lo_opp.
  assert (B1 : Qgtb (- a) (back_hi c) = Qltb a (- back_hi c)).
  { apply eq_true_iff_eq. rewrite Qgtb_iff, Qltb_iff. split; lra. }
  assert (B2 : Qltb (- a) (- back_hi c) = Qgtb a (back_hi c)).
  { apply eq_true_iff_eq. rewrite Qgtb_iff, Qltb_iff. split; lra. }
  assert (F1 : Qgtb (- a) (- front_hi c) = Qltb a (front_hi c)).
  { apply eq_true_iff_eq. rewrite Qgtb_iff, Qltb_iff. split; lra. }
  assert (F2 : Qltb (- a) (front_hi c) = Qgtb a (- front_hi c)).
  { apply eq_true_iff_eq. rewrite Qgtb_iff, Qltb_iff. split; lra. }
  rewrite B1, B2, F1, F2.
  by rewrite (orb_comm (Qltb a _)), (andb_comm (Qltb a _)).
Qed.

(** X13. The selection is symmetric in the azimuth: negating every
    azimuth of a batch changes no direction index, hence no output row. *)
Theorem azimuth_mirror {Row} (encode : string → Row) (c : Config.t)
    (library : PromptLibrary) (self : PromptProcessor Row)
    (ele azi dis : list Q) :
  configure encode c library = Ok self →
  get_direction_idx self ele (Qopp <$> azi) dis
    = get_direction_idx self ele azi dis ∧
  __call__ self ele (Qopp <$> azi) dis = __call__ self ele azi dis.
Proof.
  intros Hcfg. apply configure_built in Hcfg as HB.
  assert (H : get_direction_idx self ele (Qopp <$> azi) dis
              = get_direction_idx self ele azi dis).
  { rewrite !(get_direction_idx_total _ _ _ _ _ _ _ HB), length_fmap.
    case_decide; [|done]. f_equal.
    apply list_eq. intros i. rewrite !lookup_zip_with, list_lookup_fmap.
    destruct (ele !! i) as [e|]; [|done].
    destruct (azi !! i) as [a|]; [|done].
    simpl. by rewrite sample_direction_mirror. }
  split; [done|]. unfold __call__, call_blocks. by rewrite H.
Qed.

(** X14. The selection depends on the three thresholds only: two
    configured processors with the same thresholds, whatever their
    prompts, libraries and mode, give every batch the same indices. *)
Theorem selection_by_thresholds {Row} (encode : string → Row)
    (c c' : Config.t) (library library' : PromptLibrary)
    (self self' : PromptProcessor Row) (ele azi dis : list Q) :
  configure encode c library = Ok self →
  configure encode c' library' = Ok self' →
  Config.overhead_threshold c = Config.overhead_threshold c' →
  Config.front_threshold c = Config.front_threshold c' →
  Config.back_threshold c = Config.back_threshold c' →
  get_direction_idx self ele azi dis = get_direction_idx self' ele azi dis.
Proof.
  intros Hcfg Hcfg' Ho Hf Hb.
  apply configure_built in Hcfg as HB. apply configure_built in Hcfg' as HB'.
  rewrite (get_direction_idx_total _ _ _ _ _ _ _ HB).
  rewrite (get_direction_idx_total _ _ _ _ _ _ _ HB').
  case_decide; [|done]. f_equal.
  apply list_eq. intros i. rewrite !lookup_zip_with.
  destruct (ele !! i) as [e|]; [|done].
  destruct (azi !! i) as [a|]; [|done].
  simpl.
  unfold sample_direction, overhead_bound, back_hi, back_lo, front_lo,
    front_hi.
  by rewrite Ho, Hf, Hb.
Qed.

(** * Further properties of [__call__] *)

Lemma index_fmap_total {A B} (f : A → B) (l : list A) (d : A)
    (idx : list nat) :
  Forall (λ k, (k < length l)%nat) idx →
  Tensor.index (f <$> l) idx = Ok ((λ k, f (nth k l d)) <$> idx).
Proof.
  induction 1 as [|k idx Hk _ IH]; [done|].
  cbn [Tensor.index]. rewrite IH, list_lookup_fmap.
  destruct (lookup_lt_is_Some_2 l k Hk) as [x Hx].
  rewrite Hx. cbn. by rewrite (nth_lookup_Some _ _ d _ Hx).
Qed.

Lemma index_replicate {A} (r : A) (n : nat) (idx : list nat) :
  Forall (λ k, (k < n)%nat) idx →
  Tensor.index (replicate n r) idx = Ok (replicate (length idx) r).
Proof.
  induction 1 as [|k idx Hk _ IH]; [done|].
  cbn [Tensor.index]. rewrite IH.
  by rewrite (lookup_replicate_2 n r k Hk).
Qed.

Lemma sample_direction_bound (c : Config.t) (ele azi : list Q) :
  Forall (λ k, (k < 4)%nat) (zip_with (sample_direction c) ele azi).
Proof.
  apply Forall_forall. intros k Hk.
  apply elem_of_zip_with in Hk as (e & a & -> & _ & _).
  unfold sample_direction.
  destruct (Qgtb e _); [lia|]. destruct (_ || _); [lia|].
  destruct (_ && _); lia.
Qed.

(** The two blocks of a configured processor on a well-shaped batch. *)
Lemma built_call_blocks {Row} (encode : string → Row) c library self
    (ele azi dis : list Q) :
  Built encode c library self →
  length azi = length ele →
  call_blocks self ele azi dis =
    Ok (if Config.view_dependent_prompting c
        then ((λ k, encode
                      (nth k (view_prompts
                                (Config.view_dependent_prompt_front c)
                                (if Config.view_dependent_prompt_front c
                                 then Config.prompt c else prompt self))
                           EmptyString))
                <$> zip_with (sample_direction c) ele azi,
              replicate (length ele) (encode (view_negative_prompt c)))
        else (replicate (length ele) (encode (prompt self)),
              replicate (length ele) (encode (negative_prompt self)))).
Proof.
  intros HB Hlen. unfold call_blocks. rewrite (built_cfg _ _ _ _ HB).
  destruct (Config.view_dependent_prompting c).
  - rewrite (get_direction_idx_closed _ _ _ _ _ _ _ HB Hlen). cbn [rbind].
    destruct (built_view_prompts _ _ _ _ HB) as [-> ->].
    rewrite (index_fmap_total encode _ EmptyString).
    + cbn [rbind]. rewrite index_replicate by apply sample_direction_bound.
      cbn [rbind]. rewrite length_zip_with. do 3 f_equal. lia.
    + eapply Forall_impl; [apply sample_direction_bound|].
      intros k Hk. simpl in Hk. unfold view_prompts.
      by destruct (Config.view_dependent_prompt_front c).
  - rewrite (built_base _ _ _ _ HB), (built_uncond _ _ _ _ HB).
    by rewrite !expand_single.
Qed.

(** X15. Samples are treated one by one: the blocks of two batches put end
    to end are the blocks of the first followed by the blocks of the
    second, so the output of the joint call is the two conditional blocks
    followed by the two unconditional blocks. *)
Theorem call_blocks_app {Row} (encode : string → Row) (c : Config.t)
    (library : PromptLibrary) (self : PromptProcessor Row)
    (ele1 azi1 dis1 ele2 azi2 dis2 : list Q) :
  configure encode c library = Ok self →
  length azi1 = length ele1 →
  length azi2 = length ele2 →
  ∃ cond1 uncond1 cond2 uncond2,
    call_blocks self ele1 azi1 dis1 = Ok (cond1, uncond1) ∧
    call_blocks self ele2 azi2 dis2 = Ok (cond2, uncond2) ∧
    call_blocks self (app ele1 ele2) (app azi1 azi2) (app dis1 dis2)
      = Ok (app cond1 cond2, app uncond1 uncond2) ∧
    __call__ self (app ele1 ele2) (app azi1 azi2) (app dis1 dis2)
      = Ok (app (app cond1 cond2) (app uncond1 uncond2)).
Proof.
  intros Hcfg H1 H2. apply configure_built in Hcfg as HB.
  assert (H12 : length (app azi1 azi2) = length (app ele1 ele2))
    by (rewrite !length_app; lia).
  assert (Hjoint :
    ∃ cond1 uncond1 cond2 uncond2,
      call_blocks self ele1 azi1 dis1 = Ok (cond1, uncond1) ∧
      call_blocks self ele2 azi2 dis2 = Ok (cond2, uncond2) ∧
      call_blocks self (app ele1 ele2) (app azi1 azi2) (app dis1 dis2)
        = Ok (app cond1 cond2, app uncond1 uncond2)).
  { rewrite (built_call_blocks _ _ _ _ ele1 azi1 dis1 HB H1).
    rewrite (built_call_blocks _ _ _ _ ele2 azi2 dis2 HB H2).
    rewrite (built_call_blocks _ _ _ _ _ _ _ HB H12).
    destruct (Config.view_dependent_prompting c).
    - do 4 eexists. split; [done|]. split; [done|].
      rewrite zip_with_app by done.
      by rewrite fmap_app, length_app, replicate_add.
    - do 4 eexists. split; [done|]. split; [done|].
      by rewrite length_app, !replicate_add. }
  destruct Hjoint as (c1 & u1 & c2 & u2 & E1 & E2 & E12).
  exists c1, u1, c2, u2. repeat split; try done.
  unfold __call__. by rewrite E12.
Qed.

Lemma string_length_app (s1 s2 : string) :
  String.length (s1 +:+ s2) = (String.length s1 + String.length s2)%nat.
Proof. induction s1 as [|c s1 IH]; simpl; [done | by rewrite IH]. Qed.

(** X16. The unconditional rows do not depend on the view: with
    view-dependent prompting every unconditional row encodes the same
    text, the negative prompt with one space before it in front-aware mode
    and one space after it otherwise; this text is not the base negative
    prompt. *)
Theorem uncond_rows_view_independent {Row} (encode : string → Row)
    (c : Config.t) (library : PromptLibrary) (self : PromptProcessor Row)
    (ele azi dis : list Q) :
  configure encode c library = Ok self →
  Config.view_dependent_prompting c = true →
  length azi = length ele →
  (∃ cond,
     call_blocks self ele azi dis
     = Ok (cond, replicate (length ele) (encode (view_negative_prompt c)))) ∧
  view_negative_prompt c ≠ Config.negative_prompt c.
Proof.
  intros Hcfg Hvd Hlen. apply configure_built in Hcfg as HB.
  split.
  - rewrite (built_call_blocks _ _ _ _ _ _ _ HB Hlen), Hvd. by eexists.
  - unfold view_negative_prompt.
    destruct (Config.view_dependent_prompt_front c); intros E;
      apply (f_equal String.length) in E;
      rewrite string_length_app in E; simpl in E; lia.
Qed.

(** X17. End to end, with view-dependent prompting and a base prompt that
    is resolved (side-suffix mode, or a prompt that is not a library
    query): row [i] of the output encodes the text of the direction of
    sample [i], and row [B + i] encodes the shared negative text.  The
    direction of a sample is [sample_direction]: the last row of the table
    whose test holds, each test made against the threshold as rounded for
    the comparison. *)
Theorem call_rows_encode_view_text {Row} (encode : string → Row)
    (c : Config.t) (library : PromptLibrary) (self : PromptProcessor Row)
    (ele azi dis : list Q) (i : nat) (e a : Q) :
  configure encode c library = Ok self →
  Config.view_dependent_prompting c = true →
  (Config.view_dependent_prompt_front c = true →
   Str.startswith (Config.prompt c) "lib:" = false) →
  length azi = length ele →
  ele !! i = Some e → azi !! i = Some a →
  ∃ out text,
    __call__ self ele azi dis = Ok out ∧
    view_prompts (Config.view_dependent_prompt_front c) (prompt self)
      !! sample_direction c e a = Some text ∧
    out !! i = Some (encode text) ∧
    out !! (length ele + i)%nat = Some (encode (view_negative_prompt c)).
Proof.
  intros Hcfg Hvd Hplain Hlen He Ha. apply configure_built in Hcfg as HB.
  assert (Hp : (if Config.view_dependent_prompt_front c
                then Config.prompt c else prompt self) = prompt self).
  { destruct (Config.view_dependent_prompt_front c); [|done].
    pose proof (built_prompt _ _ _ _ HB) as Hp.
    unfold preprocess_prompt in Hp. rewrite (Hplain eq_refl) in Hp.
    by injection Hp. }
  unfold __call__.
  rewrite (built_call_blocks _ _ _ _ _ _ _ HB Hlen), Hvd, Hp.
  cbn [rbind fst snd]. unfold Tensor.cat.
  set (texts := view_prompts (Config.view_dependent_prompt_front c)
                  (prompt self)).
  assert (Hi : (i < length ele)%nat) by (by eapply lookup_lt_Some).
  destruct (lookup_lt_is_Some_2 texts (sample_direction c e a))
    as [text Htext].
  { pose proof (sample_direction_bound c [e] [a]) as Hb.
    apply Forall_inv in Hb. unfold texts, view_prompts.
    by destruct (Config.view_dependent_prompt_front c). }
  eexists _, text. split; [done|]. split; [done|]. split.
  - rewrite lookup_app_l by (rewrite length_fmap, length_zip_with; lia).
    rewrite list_lookup_fmap, lookup_zip_with, He, Ha. simpl.
    by rewrite (nth_lookup_Some _ _ EmptyString _ Htext).
  - rewrite lookup_app_r by (rewrite length_fmap, length_zip_with; lia).
    rewrite length_fmap, length_zip_with.
    apply lookup_replicate_2. lia.
Qed.

(** * Queries and libraries, continued *)

Lemma filter_filter_implies {A} (f g : A → bool) (l : list A) :
  (∀ x, g x = true → f x = true) →
  List.filter g l = List.filter g (List.filter f l).
Proof.
  intros Himp. induction l as [|x l IH]; [done|]. simpl.
  destruct (f x) eqn:Hf; simpl.
  - destruct (g x); by rewrite IH.
  - destruct (g x) eqn:Hg; [|done]. apply Himp in Hg. congruence.
Qed.

(** X18. Refining a query never switches to another entry: if a query
    resolves to an entry, a query with at least the same keywords either
    resolves to that same entry or finds nothing. *)
Theorem refined_query (library : PromptLibrary) (p p' c : string)
    (candidates : list string) :
  Str.startswith p "lib:" = true →
  Str.startswith p' "lib:" = true →
  library !! "dreamfusion" = Some candidates →
  (∀ k, k ∈ keywords_of p → k ∈ keywords_of p') →
  preprocess_prompt library p = Ok c →
  preprocess_prompt library p' = Ok c ∨
  preprocess_prompt library p'
  = Raise (ValueError_not_found (keywords_of p')).
Proof.
  intros Hlib Hlib' Hcat Hsub.
  rewrite (preprocess_prompt_by_hits _ _ _ Hlib Hcat).
  rewrite (preprocess_prompt_by_hits _ _ _ Hlib' Hcat).
  rewrite (filter_filter_implies (matches_keywords (keywords_of p))
             (matches_keywords (keywords_of p'))).
  - destruct (List.filter (matches_keywords (keywords_of p)) candidates)
      as [|c0 [|c1 tl]]; [discriminate | | discriminate].
    intros [= ->]. simpl.
    destruct (matches_keywords (keywords_of p') c); [by left | by right].
  - intros x. rewrite !matches_keywords_iff. intros H k Hk.
    apply H. by apply Hsub.
Qed.

(** X19. An entry that is listed twice in the [dreamfusion] list is never
    returned: every query that matches it is ambiguous. *)
Theorem duplicate_entry_unreachable (library : PromptLibrary) (p c : string)
    (l1 l2 l3 : list string) :
  Str.startswith p "lib:" = true →
  library !! "dreamfusion" = Some (app l1 (c :: app l2 (c :: l3))) →
  preprocess_prompt library p ≠ Ok c ∧
  (matches_keywords (keywords_of p) c = true →
   preprocess_prompt library p
   = Raise (ValueError_multiple (keywords_of p))).
Proof.
  intros Hlib Hcat.
  rewrite (preprocess_prompt_by_hits _ _ _ Hlib Hcat).
  set (f := matches_keywords (keywords_of p)).
  assert (Htwo : f c = true →
            (2 <= length (List.filter f (app l1 (c :: app l2 (c :: l3)))))%nat).
  { intros Hc. rewrite List.filter_app. cbn [List.filter].
    rewrite Hc, List.filter_app. cbn [List.filter]. rewrite Hc.
    rewrite length_app. cbn [length]. rewrite length_app. cbn [length].
    lia. }
  destruct (List.filter f _) as [|x [|y tl]] eqn:Hhits.
  - split; [done|]. intros Hc. apply Htwo in Hc. simpl in Hc. lia.
  - assert (Hx : f x = true).
    { assert (Hin : In x [x]) by (by left). rewrite <- Hhits in Hin.
      by apply filter_In in Hin as [_ Hm]. }
    split.
    + intros [= ->]. apply Htwo in Hx. simpl in Hx. lia.
    + intros Hc. apply Htwo in Hc. simpl in Hc. lia.
  - split; done.
Qed.

(** X20. Azimuths are compared as given, not reduced modulo 360.  With
    the bounds as the comparisons see them: when the front interval lies
    between the two back bounds and the upper back bound is less than a
    full turn above the lower front bound, a sample in the front interval
    and a sample a full turn further (same elevation, not above the
    overhead bound) get different indices: [front] for the first, [back]
    for the second. *)
Theorem full_turn_changes_direction {Row} (encode : string → Row)
    (c : Config.t) (library : PromptLibrary) (self : PromptProcessor Row)
    (e a : Q) (dis : list Q) :
  configure encode c library = Ok self →
  (front_hi c <= back_hi c)%Q →
  (back_lo c <= front_lo c)%Q →
  (back_hi c < front_lo c + 360)%Q →
  (e <= overhead_bound c)%Q →
  in_front_interval c a →
  get_direction_idx self [e; e] [a; (a + 360)%Q] dis = Ok [1; 2]%nat.
Proof.
  intros Hcfg Hhi Hlo Hturn Hlow Hfront. apply configure_built in Hcfg as HB.
  rewrite (get_direction_idx_closed encode c library self
             [e; e] [a; (a + 360)%Q] dis HB eq_refl).
  cbn [zip_with]. unfold sample_direction.
  rewrite (proj2 (Qgtb_false_iff _ _) Hlow).
  destruct (front_back_disjoint c a Hhi Hlo Hfront) as [Hb1 Hb2].
  destruct Hfront as [Hf1 Hf2].
  rewrite (proj2 (Qgtb_false_iff _ _) Hb1).
  rewrite (proj2 (Qltb_false_iff _ _) Hb2).
  rewrite (proj2 (Qgtb_iff _ _) Hf1), (proj2 (Qltb_iff _ _) Hf2).
  assert (Hfar : (back_hi c < a + 360)%Q) by lra.
  by rewrite (proj2 (Qgtb_iff _ _) Hfar).
Qed.

End Model.

Arguments cfg {Row} _.
Arguments prompt_library {Row} _.
Arguments prompt {Row} _.
Arguments negative_prompt {Row} _.
Arguments text_embeddings {Row} _.
Arguments uncond_text_embeddings {Row} _.
Arguments directions {Row} _.
Arguments direction2idx {Row} _.
Arguments text_embeddings_vd {Row} _.
Arguments uncond_text_embeddings_vd {Row} _.
Arguments configure L ext {Row} encode cfg library.
Arguments get_direction_idx {Row} self elevation azimuth camera_distances.
Arguments direction_loop {Row} self elevation azimuth camera_distances
  direction_idx ds.
Arguments direction_step {Row} self elevation azimuth camera_distances
  direction_idx d.
Arguments call_blocks {Row} self elevation azimuth camera_distances.
Arguments __call__ {Row} self elevation azimuth camera_distances.
Arguments call_step {Row} self p.
Arguments lifetime {Row} self calls.

(** * The properties at concrete inputs *)

Example resolve_hamburger :
  preprocess_prompt ascii_lower demo_library "lib:Hamburger"
  = Ok "a DSLR photo of a hamburger".
Proof. vm_compute. reflexivity. Qed.

Example resolve_two_keywords :
  preprocess_prompt ascii_lower demo_library "lib:baby_bunny"
  = Ok "a zoomed out DSLR photo of a baby bunny".
Proof. vm_compute. reflexivity. Qed.

Example resolve_ambiguous :
  preprocess_prompt ascii_lower demo_library "lib:dslr_photo"
  = Raise (ValueError_multiple ["dslr"; "photo"]).
Proof. vm_compute. reflexivity. Qed.

Example resolve_missing :
  preprocess_prompt ascii_lower demo_library "lib:teapot"
  = Raise (ValueError_not_found ["teapot"]).
Proof. vm_compute. reflexivity. Qed.

Example resolve_plain :
  preprocess_prompt ascii_lower demo_library "a hamburger" = Ok "a hamburger".
Proof. reflexivity. Qed.

Lemma preprocess_prompt_lib_witness :
  Str.startswith "lib:Baby_DSLR" "lib:" = true ∧
  demo_library !! "dreamfusion"
    = Some [ "a DSLR photo of a hamburger";
             "a zoomed out DSLR photo of a baby bunny";
             "a DSLR photo of a corgi puppy" ] ∧
  keywords_of ascii_lower "lib:Baby_DSLR" = ["baby"; "dslr"] ∧
  preprocess_prompt ascii_lower demo_library "lib:Baby_DSLR"
    = Ok "a zoomed out DSLR photo of a baby bunny".
Proof.
  split; [reflexivity|]. split; [reflexivity|]. split; [reflexivity|].
  destruct (preprocess_prompt_lib ascii_lower demo_library "lib:Baby_DSLR" _
              eq_refl eq_refl) as (_ & _ & _ & Hone & _).
  apply (Hone ["a DSLR photo of a hamburger"]
              "a zoomed out DSLR photo of a baby bunny"
              ["a DSLR photo of a corgi puppy"] eq_refl).
  - apply matches_keywords_spec. vm_compute. reflexivity.
  - intros c' Hc' Hm. apply matches_keywords_spec in Hm.
    apply elem_of_cons in Hc' as [-> | Hc'].
    + vm_compute in Hm. discriminate Hm.
    + apply elem_of_cons in Hc' as [-> | Hc'].
      * vm_compute in Hm. discriminate Hm.
      * by apply elem_of_nil in Hc'.
Defined.

Lemma preprocess_prompt_passthrough_witness :
  Str.startswith "a hamburger" "lib:" = false ∧
  preprocess_prompt ascii_lower demo_library "a hamburger" = Ok "a hamburger".
Proof.
  split; [reflexivity|]. apply preprocess_prompt_passthrough. reflexivity.
Defined.

Lemma demo_configured :
  configure ascii_lower working verbatim Config.default demo_library
  = Ok demo_processor.
Proof. reflexivity. Qed.

Lemma plain_configured :
  configure ascii_lower working verbatim plain_cfg demo_library
  = Ok plain_processor.
Proof. reflexivity. Qed.

Lemma front_lib_configured :
  configure ascii_lower working verbatim front_lib_cfg demo_library = Ok front_lib_processor.
Proof. reflexivity. Qed.

Lemma wide_back_configured :
  configure ascii_lower working verbatim wide_back_cfg demo_library = Ok wide_back_processor.
Proof. reflexivity. Qed.

(** The example of the specification: thresholds 45 / 45 / 60. *)
Example spec_example_directions :
  get_direction_idx demo_processor [0; 0; 70; 0]%Q [0; 170; 0; 90]%Q
    [1; 1; 1; 1]%Q
  = Ok [1; 2; 3; 0]%nat.
Proof. vm_compute. reflexivity. Qed.

Example call_demo :
  __call__ demo_processor [0; 70]%Q [170; 0]%Q [1; 1]%Q
  = Ok [ "a hamburger , back view"; "a hamburger , overhead view"; " "; " " ].
Proof. vm_compute. reflexivity. Qed.

Example call_shape_mismatch :
  __call__ demo_processor [0; 70]%Q [170]%Q [1; 1]%Q
  = Raise IndexError_mask_shape.
Proof. vm_compute. reflexivity. Qed.

(** C5 fails as worded. With [overhead_threshold = 60.2] the comparison
    is made against the single-precision number nearest to 60.2, which is
    15781069 / 2^18 and lies above 60.2.  A sample at exactly that
    elevation is strictly above the threshold, yet the test [ele >
    threshold] is false for it; with azimuth 0 it ends as [front]. *)
Lemma overhead_rule_as_stated_fails :
  configure ascii_lower working verbatim sharp_cfg demo_library = Ok sharp_processor ∧
  Float.binary64 (301 # 5) = Config.overhead_threshold sharp_cfg ∧
  Float.binary32 (15781069 # 262144) = (15781069 # 262144)%Q ∧
  (Config.overhead_threshold sharp_cfg < 15781069 # 262144)%Q ∧
  get_direction_idx sharp_processor [15781069 # 262144]%Q [0]%Q [1]%Q
    = Ok [1%nat] ∧
  direction2idx sharp_processor !! "overhead" = Some 3%nat ∧
  ¬ overhead_rule_as_stated ascii_lower working.
Proof.
  split; [reflexivity|]. split; [vm_compute; reflexivity|].
  split; [vm_compute; reflexivity|]. split; [reflexivity|].
  split; [vm_compute; reflexivity|]. split; [vm_compute; reflexivity|].
  intros H.
  destruct (H sharp_cfg demo_library sharp_processor
              [15781069 # 262144]%Q [0]%Q [1]%Q 0%nat (15781069 # 262144)%Q)
    as (idx & k & Hidx & Hk & Hi); try reflexivity.
  vm_compute in Hidx. injection Hidx as <-.
  vm_compute in Hk. injection Hk as <-.
  discriminate Hi.
Qed.

Lemma overhead_overrides_witness :
  configure ascii_lower working verbatim Config.default demo_library = Ok demo_processor ∧
  length [0; 170]%Q = length [70; 61]%Q ∧
  [70; 61]%Q !! 1%nat = Some 61%Q ∧
  (Float.binary32 (Config.overhead_threshold Config.default) < 61)%Q ∧
  ∃ idx k,
    get_direction_idx demo_processor [70; 61]%Q [0; 170]%Q [1; 1]%Q = Ok idx ∧
    direction2idx demo_processor !! "overhead" = Some k ∧
    idx !! 1%nat = Some k ∧
    DirectionConfig.name <$> last (directions demo_processor)
      = Some "overhead" ∧
    S k = length (directions demo_processor).
Proof.
  assert (H : (Float.binary32 (Config.overhead_threshold Config.default)
               < 61)%Q) by (vm_compute; reflexivity).
  split; [reflexivity|]. split; [reflexivity|]. split; [reflexivity|].
  split; [exact H|].
  exact (overhead_overrides ascii_lower working verbatim Config.default demo_library
           demo_processor [70; 61]%Q [0; 170]%Q [1; 1]%Q 1%nat 61%Q
           eq_refl eq_refl eq_refl H).
Defined.

(** C4 fails as worded. With [front_threshold = 45] and
    [back_threshold = 170] the azimuth 20 lies in the front interval and
    also beyond [180 - 170 = 10]: the [back] row, evaluated after [front],
    takes the sample, which ends with index 2 while [front] has index 1. *)
Lemma front_rule_as_stated_fails :
  configure ascii_lower working verbatim wide_back_cfg demo_library = Ok wide_back_processor ∧
  (- Config.front_threshold wide_back_cfg < 20)%Q ∧
  (20 < Config.front_threshold wide_back_cfg)%Q ∧
  (0 <= Config.overhead_threshold wide_back_cfg)%Q ∧
  get_direction_idx wide_back_processor [0]%Q [20]%Q [1]%Q = Ok [2%nat] ∧
  direction2idx wide_back_processor !! "front" = Some 1%nat ∧
  ¬ front_rule_as_stated ascii_lower working.
Proof.
  split; [reflexivity|]. split; [reflexivity|]. split; [reflexivity|].
  split; [discriminate|]. split; [vm_compute; reflexivity|].
  split; [vm_compute; reflexivity|].
  intros H.
  destruct (H wide_back_cfg demo_library wide_back_processor
              [0]%Q [20]%Q [1]%Q 0%nat 0%Q 20%Q)
    as (idx & k & Hidx & Hk & Hi); try reflexivity.
  - discriminate.
  - vm_compute in Hidx. injection Hidx as <-.
    vm_compute in Hk. injection Hk as <-.
    discriminate Hi.
Qed.

Lemma front_direction_witness :
  configure ascii_lower working verbatim Config.default demo_library = Ok demo_processor ∧
  ∃ idx k,
    get_direction_idx demo_processor [0; 60]%Q [90; 44]%Q [1; 1]%Q = Ok idx ∧
    direction2idx demo_processor !! "front" = Some k ∧
    idx !! 1%nat = Some k.
Proof.
  split; [reflexivity|].
  apply (front_direction ascii_lower working verbatim Config.default demo_library
           demo_processor [0; 60]%Q [90; 44]%Q [1; 1]%Q 1%nat 60%Q 44%Q);
    try reflexivity; vm_compute; (reflexivity || discriminate).
Defined.

Lemma direction_idx_in_range_witness :
  configure ascii_lower working verbatim Config.default demo_library = Ok demo_processor ∧
  Forall (λ k, (k < length (directions demo_processor))%nat)
    [1; 2; 3; 0]%nat ∧
  __call__ demo_processor [0; 0; 70; 0]%Q [0; 170; 0; 90]%Q [1; 1; 1; 1]%Q
    ≠ Raise IndexError_out_of_range.
Proof.
  split; [reflexivity|].
  pose proof (direction_idx_in_range ascii_lower working verbatim Config.default demo_library
                demo_processor [0; 0; 70; 0]%Q [0; 170; 0; 90]%Q
                [1; 1; 1; 1]%Q eq_refl) as (_ & Hidx & Hcall).
  split; [|exact Hcall].
  apply (Hidx [1; 2; 3; 0]%nat). vm_compute. reflexivity.
Defined.

Lemma call_layout_witness :
  configure ascii_lower working verbatim Config.default demo_library = Ok demo_processor ∧
  length [170; 0]%Q = length [0; 70]%Q ∧
  ∃ out,
    __call__ demo_processor [0; 70]%Q [170; 0]%Q [1; 1]%Q = Ok out ∧
    length out = 4%nat ∧
    take 2 out = ["a hamburger , back view"; "a hamburger , overhead view"] ∧
    drop 2 out = [" "; " "].
Proof.
  split; [reflexivity|]. split; [reflexivity|].
  destruct (call_layout ascii_lower working verbatim Config.default demo_library demo_processor
              [0; 70]%Q [170; 0]%Q [1; 1]%Q eq_refl eq_refl)
    as (cond & uncond & out & Hb & Hc & Hl & Ht & Hd & _).
  exists out. split; [exact Hc|]. split; [exact Hl|].
  vm_compute in Hb. injection Hb as <- <-. by split.
Defined.

Lemma call_broadcast_witness :
  configure ascii_lower working verbatim plain_cfg demo_library = Ok plain_processor ∧
  Config.view_dependent_prompting plain_cfg = false ∧
  __call__ plain_processor [0; 70; 10]%Q [170; 0; 0]%Q [1; 1; 1]%Q
  = Ok ["a hamburger"; "a hamburger"; "a hamburger"; ""; ""; ""].
Proof.
  split; [reflexivity|]. split; [reflexivity|].
  destruct (call_broadcast ascii_lower working verbatim plain_cfg demo_library plain_processor
              [0; 70; 10]%Q [170; 0; 0]%Q [1; 1; 1]%Q eq_refl eq_refl)
    as (base & ubase & out & _ & _ & Hcall & _).
  rewrite Hcall. vm_compute in Hcall. by symmetry.
Defined.

Lemma configured_invariant_witness :
  configure ascii_lower working verbatim front_lib_cfg demo_library = Ok front_lib_processor ∧
  length (directions front_lib_processor)
    = length (text_embeddings_vd front_lib_processor) ∧
  direction2idx front_lib_processor !! "back" = Some 2%nat.
Proof.
  split; [reflexivity|].
  destruct (configured_invariant ascii_lower working verbatim front_lib_cfg demo_library
              front_lib_processor
              [mkPose [0]%Q [170]%Q [1]%Q; mkPose [70]%Q [0]%Q [1]%Q]
              eq_refl)
    as (Hrows & _ & Hbij).
  split; [exact Hrows|].
  destruct Hbij as (_ & _ & _ & _ & Hrow). exact (Hrow 2%nat _ eq_refl).
Defined.

(** C3 fails as worded. The negative prompt [lib:corgi] has exactly one
    match in the library, yet the processor keeps the query text itself and
    encodes it as it is. *)
Lemma negative_prompt_resolved_as_stated_fails :
  configure ascii_lower working verbatim front_lib_cfg demo_library = Ok front_lib_processor ∧
  preprocess_prompt ascii_lower demo_library (Config.negative_prompt front_lib_cfg)
    = Ok "a DSLR photo of a corgi puppy" ∧
  negative_prompt front_lib_processor = "lib:corgi" ∧
  uncond_text_embeddings front_lib_processor = ["lib:corgi"] ∧
  ¬ negative_prompt_resolved_as_stated ascii_lower working.
Proof.
  split; [reflexivity|]. split; [vm_compute; reflexivity|].
  split; [reflexivity|]. split; [reflexivity|].
  intros H. specialize (H front_lib_cfg demo_library front_lib_processor eq_refl).
  vm_compute in H. discriminate H.
Qed.

Lemma configure_resolves_prompt_only_witness :
  configure ascii_lower working verbatim front_lib_cfg demo_library = Ok front_lib_processor ∧
  prompt front_lib_processor = "a DSLR photo of a hamburger" ∧
  negative_prompt front_lib_processor = "lib:corgi" ∧
  uncond_text_embeddings front_lib_processor = ["lib:corgi"].
Proof.
  split; [reflexivity|].
  destruct (configure_resolves_prompt_only ascii_lower working verbatim front_lib_cfg
              demo_library front_lib_processor eq_refl)
    as (_ & Hneg & _ & Hun).
  split; [reflexivity|]. split; [exact Hneg | exact Hun].
Defined.

(** C2, at the configuration [front_lib_cfg] (front-aware mode, prompt
    [lib:hamburger]): the prompt resolves to the library entry, but the
    per-direction strings handed to the encoder are built from the
    unresolved query text, so they differ from the fragment prepended to
    the resolved prompt. *)
Theorem front_mode_skips_resolved_prompt :
  configure ascii_lower working verbatim front_lib_cfg demo_library = Ok front_lib_processor ∧
  preprocess_prompt ascii_lower demo_library (Config.prompt front_lib_cfg)
    = Ok (prompt front_lib_processor) ∧
  prompt front_lib_processor = "a DSLR photo of a hamburger" ∧
  text_embeddings_vd front_lib_processor
    = [ "side view of  lib:hamburger "; "front view of  lib:hamburger ";
        "backside view of  lib:hamburger ";
        "overhead view of  lib:hamburger " ] ∧
  text_embeddings_vd front_lib_processor
    ≠ verbatim <$> ((λ d, DirectionConfig.prompt d +:+ " "
                          +:+ prompt front_lib_processor +:+ " ")
                      <$> directions front_lib_processor).
Proof.
  split; [reflexivity|]. split; [reflexivity|]. split; [reflexivity|].
  split; [reflexivity|]. vm_compute. discriminate.
Qed.

Lemma resolved_prompt_sound_witness :
  "a zoomed out DSLR photo of a baby bunny"
    ∈ [ "a DSLR photo of a hamburger";
        "a zoomed out DSLR photo of a baby bunny";
        "a DSLR photo of a corgi puppy" ] ∧
  List.filter (matches_keywords ascii_lower (keywords_of ascii_lower "lib:Baby_DSLR"))
    [ "a DSLR photo of a hamburger";
      "a zoomed out DSLR photo of a baby bunny";
      "a DSLR photo of a corgi puppy" ]
  = ["a zoomed out DSLR photo of a baby bunny"].
Proof.
  destruct (resolved_prompt_sound ascii_lower demo_library "lib:Baby_DSLR"
              "a zoomed out DSLR photo of a baby bunny" _
              eq_refl eq_refl eq_refl) as (Hin & _ & Hhits).
  split; [exact Hin | exact Hhits].
Defined.

Lemma library_order_irrelevant_witness :
  preprocess_prompt ascii_lower demo_library "lib:corgi"
  = preprocess_prompt ascii_lower
      {[ "dreamfusion" := [ "a DSLR photo of a corgi puppy";
                            "a DSLR photo of a hamburger";
                            "a zoomed out DSLR photo of a baby bunny" ] ]}
      "lib:corgi".
Proof.
  apply (library_order_irrelevant ascii_lower demo_library _ "lib:corgi"
           [ "a DSLR photo of a hamburger";
             "a zoomed out DSLR photo of a baby bunny";
             "a DSLR photo of a corgi puppy" ]
           [ "a DSLR photo of a corgi puppy";
             "a DSLR photo of a hamburger";
             "a zoomed out DSLR photo of a baby bunny" ]);
    [reflexivity | reflexivity |].
  change [ "a DSLR photo of a hamburger";
           "a zoomed out DSLR photo of a baby bunny";
           "a DSLR photo of a corgi puppy" ]
    with ([ "a DSLR photo of a hamburger";
            "a zoomed out DSLR photo of a baby bunny" ]
          ++ ["a DSLR photo of a corgi puppy"])%list.
  apply Permutation_app_comm.
Defined.

Lemma keyword_order_irrelevant_witness :
  preprocess_prompt ascii_lower demo_library "lib:bunny_baby_bunny"
  = Ok "a zoomed out DSLR photo of a baby bunny".
Proof.
  assert (Hsame : ∀ k, k ∈ keywords_of ascii_lower "lib:baby_bunny" ↔
                       k ∈ keywords_of ascii_lower "lib:bunny_baby_bunny").
  { intros k.
    change (keywords_of ascii_lower "lib:baby_bunny") with ["baby"; "bunny"].
    change (keywords_of ascii_lower "lib:bunny_baby_bunny")
      with ["bunny"; "baby"; "bunny"].
    rewrite !elem_of_cons, !elem_of_nil. tauto. }
  apply (proj1 (keyword_order_irrelevant ascii_lower demo_library
                  "lib:baby_bunny" "lib:bunny_baby_bunny" _
                  eq_refl eq_refl eq_refl Hsame)).
  vm_compute. reflexivity.
Defined.

Lemma empty_query_matches_all_witness :
  preprocess_prompt ascii_lower demo_library "lib:_"
  = Raise (ValueError_multiple [EmptyString; EmptyString]).
Proof.
  apply (empty_query_matches_all ascii_lower demo_library "lib:_" _ eq_refl eq_refl).
  repeat constructor.
Defined.

Lemma configure_failures_witness :
  (∃ self, configure ascii_lower working verbatim Config.default ∅ = Ok self ∧
           prompt self = "a hamburger") ∧
  configure ascii_lower base_class verbatim Config.default demo_library
  = Raise NotImplementedError.
Proof.
  split.
  - destruct (configure_failures ascii_lower working verbatim Config.default ∅)
      as (_ & _ & _ & _ & H).
    destruct (H eq_refl eq_refl (λ _ _, eq_refl) eq_refl) as [_ Hplain].
    apply Hplain. reflexivity.
  - apply (proj1 (configure_failures ascii_lower base_class verbatim
                    Config.default demo_library)).
    reflexivity.
Defined.

Lemma encoded_view_prompts_witness :
  ∃ self,
    configure ascii_lower working verbatim
      (Config.mk "a corgi" "" "runwayml/stable-diffusion-v1-5"
         true 60 45 45 true) demo_library = Ok self ∧
    text_embeddings_vd self
    = [ "side view of  a corgi "; "front view of  a corgi ";
        "backside view of  a corgi "; "overhead view of  a corgi " ].
Proof.
  eexists. split; [reflexivity|].
  apply (encoded_view_prompts ascii_lower working verbatim
           (Config.mk "a corgi" "" "runwayml/stable-diffusion-v1-5"
              true 60 45 45 true) demo_library _ eq_refl).
  reflexivity.
Defined.

Lemma back_overrides_front_witness :
  in_front_interval wide_back_cfg 20 ∧
  ∃ idx k,
    get_direction_idx wide_back_processor [0]%Q [20]%Q [1]%Q = Ok idx ∧
    direction2idx wide_back_processor !! "back" = Some k ∧
    idx !! 0%nat = Some k.
Proof.
  split; [split; reflexivity|].
  apply (back_overrides_front ascii_lower working verbatim wide_back_cfg demo_library
           wide_back_processor [0]%Q [20]%Q [1]%Q 0%nat 0%Q 20%Q);
    try reflexivity.
  - discriminate.
  - left. reflexivity.
Defined.

Lemma side_is_default_witness :
  ∃ idx,
    get_direction_idx demo_processor [0; 60]%Q [0; 90]%Q [1; 1]%Q = Ok idx ∧
    direction2idx demo_processor !! "side" = Some 0%nat ∧
    idx !! 1%nat = Some 0%nat.
Proof.
  apply (side_is_default ascii_lower working verbatim Config.default demo_library
           demo_processor [0; 60]%Q [0; 90]%Q [1; 1]%Q 1%nat 60%Q 90%Q);
    try reflexivity.
  - discriminate.
  - intros [H | H]; vm_compute in H; discriminate H.
  - intros [_ H]; vm_compute in H; discriminate H.
Defined.

Lemma call_shape_error_witness :
  __call__ demo_processor [0; 70]%Q [170]%Q [] = Raise IndexError_mask_shape.
Proof.
  apply (call_shape_error ascii_lower working verbatim Config.default demo_library
           demo_processor [0; 70]%Q [170]%Q [] eq_refl eq_refl).
  discriminate.
Defined.

Lemma camera_distances_ignored_witness :
  __call__ demo_processor [0; 70]%Q [170; 0]%Q [1; 1]%Q
  = __call__ demo_processor [0; 70]%Q [170; 0]%Q [].
Proof.
  exact (camera_distances_ignored ascii_lower working verbatim Config.default demo_library
           demo_processor [0; 70]%Q [170; 0]%Q [1; 1]%Q [] eq_refl).
Defined.

Lemma azimuth_mirror_witness :
  get_direction_idx demo_processor [0; 0]%Q (Qopp <$> [30; 170]%Q) [1; 1]%Q
  = Ok [1; 2]%nat.
Proof.
  rewrite (proj1 (azimuth_mirror ascii_lower working verbatim Config.default demo_library
                    demo_processor [0; 0]%Q [30; 170]%Q [1; 1]%Q eq_refl)).
  vm_compute. reflexivity.
Defined.

Lemma selection_by_thresholds_witness :
  get_direction_idx demo_processor [0; 70]%Q [170; 0]%Q [1; 1]%Q
  = get_direction_idx front_lib_processor [0; 70]%Q [170; 0]%Q [1; 1]%Q.
Proof.
  exact (selection_by_thresholds ascii_lower working verbatim Config.default front_lib_cfg
           demo_library demo_library demo_processor front_lib_processor
           [0; 70]%Q [170; 0]%Q [1; 1]%Q
           eq_refl eq_refl eq_refl eq_refl eq_refl).
Defined.

Lemma call_blocks_app_witness :
  __call__ demo_processor [0; 70]%Q [170; 0]%Q [1; 1]%Q
  = Ok [ "a hamburger , back view"; "a hamburger , overhead view";
         " "; " " ].
Proof.
  destruct (call_blocks_app ascii_lower working verbatim Config.default demo_library
              demo_processor [0]%Q [170]%Q [1]%Q [70]%Q [0]%Q [1]%Q
              eq_refl eq_refl eq_refl)
    as (c1 & u1 & c2 & u2 & E1 & E2 & _ & Hcall).
  vm_compute in E1. injection E1 as <- <-.
  vm_compute in E2. injection E2 as <- <-.
  exact Hcall.
Defined.

Lemma uncond_rows_view_independent_witness :
  ∃ cond,
    call_blocks front_lib_processor [0; 70]%Q [170; 0]%Q [1; 1]%Q
    = Ok (cond, [" lib:corgi"; " lib:corgi"]).
Proof.
  exact (proj1 (uncond_rows_view_independent ascii_lower working verbatim front_lib_cfg
                  demo_library front_lib_processor
                  [0; 70]%Q [170; 0]%Q [1; 1]%Q eq_refl eq_refl eq_refl)).
Defined.

Lemma call_rows_encode_view_text_witness :
  ∃ out text,
    __call__ demo_processor [0; 70]%Q [170; 0]%Q [1; 1]%Q = Ok out ∧
    view_prompts false "a hamburger" !! 3%nat = Some text ∧
    out !! 1%nat = Some text ∧
    out !! 3%nat = Some " ".
Proof.
  apply (call_rows_encode_view_text ascii_lower working verbatim Config.default demo_library
           demo_processor [0; 70]%Q [170; 0]%Q [1; 1]%Q 1%nat 70%Q 0%Q);
    reflexivity.
Defined.

Lemma refined_query_witness :
  preprocess_prompt ascii_lower demo_library "lib:photo_corgi"
    = Ok "a DSLR photo of a corgi puppy" ∨
  preprocess_prompt ascii_lower demo_library "lib:photo_corgi"
    = Raise (ValueError_not_found (keywords_of ascii_lower "lib:photo_corgi")).
Proof.
  apply (refined_query ascii_lower demo_library "lib:corgi" "lib:photo_corgi"
           "a DSLR photo of a corgi puppy" _ eq_refl eq_refl eq_refl).
  - intros k.
    change (keywords_of ascii_lower "lib:corgi") with ["corgi"].
    change (keywords_of ascii_lower "lib:photo_corgi") with ["photo"; "corgi"].
    rewrite !elem_of_cons, !elem_of_nil. tauto.
  - vm_compute. reflexivity.
Defined.

Lemma duplicate_entry_unreachable_witness :
  preprocess_prompt ascii_lower duplicated_library "lib:hamburger"
  = Raise (ValueError_multiple ["hamburger"]).
Proof.
  apply (proj2 (duplicate_entry_unreachable ascii_lower duplicated_library
                  "lib:hamburger" "a DSLR photo of a hamburger"
                  [] ["a DSLR photo of a corgi puppy"] []
                  eq_refl eq_refl)).
  vm_compute. reflexivity.
Defined.

Lemma full_turn_changes_direction_witness :
  get_direction_idx demo_processor [0; 0]%Q [(-10)%Q; (-10 + 360)%Q] []
  = Ok [1; 2]%nat.
Proof.
  apply (full_turn_changes_direction ascii_lower working verbatim Config.default demo_library
           demo_processor 0%Q (-10)%Q [] eq_refl).
  - vm_compute. discriminate.
  - vm_compute. discriminate.
  - vm_compute. reflexivity.
  - vm_compute. discriminate.
  - split; vm_compute; reflexivity.
Defined.

(** ** Samples that sit on a rounded threshold *)

(** [front_threshold = 45.0000001] is compared as the single-precision
    45: the azimuth 45 is inside the interval of the configuration and
    outside the interval that is tested, and the sample stays [side]. *)
Example azimuth_on_rounded_front_threshold :
  ∃ self,
    configure ascii_lower working verbatim
      (Config.mk "a hamburger" "" "runwayml/stable-diffusion-v1-5" true
         60 (Float.binary64 (450000001 # 10000000)) 45 false)
      demo_library = Ok self ∧
    (45 < Float.binary64 (450000001 # 10000000))%Q ∧
    front_hi (cfg self) = 45%Q ∧
    get_direction_idx self [0]%Q [45]%Q [1]%Q = Ok [0%nat].
Proof.
  eexists. split; [reflexivity|]. split; [vm_compute; reflexivity|].
  split; vm_compute; reflexivity.
Qed.

(** [back_threshold = 45.0000001]: [180 - back_threshold] is compared as
    the single-precision 135, and the azimuth 135 is not beyond it. *)
Example azimuth_on_rounded_back_threshold :
  ∃ self,
    configure ascii_lower working verbatim
      (Config.mk "a hamburger" "" "runwayml/stable-diffusion-v1-5" true
         60 45 (Float.binary64 (450000001 # 10000000)) false)
      demo_library = Ok self ∧
    (180 - Float.binary64 (450000001 # 10000000) < 135)%Q ∧
    back_hi (cfg self) = 135%Q ∧
    get_direction_idx self [0]%Q [135]%Q [1]%Q = Ok [0%nat].
Proof.
  eexists. split; [reflexivity|]. split; [vm_compute; reflexivity|].
  split; vm_compute; reflexivity.
Qed.

(** The base class has no encoder: [configure] raises at its first
    step. *)
Example configure_base_class :
  configure ascii_lower base_class verbatim Config.default demo_library
  = Raise NotImplementedError.
Proof. reflexivity. Qed.
